(** * A shallow embedding of [harness/command_handler/fetch.py]

    The Python module [Fetcher] is modelled with explicit effects:
    - Python exceptions are the [Raise] branch of the result type [res];
    - the outside world (the TLS socket, the HTTP server, the [security] and
      [openssl] command line tools) is an explicit input record whose fields
      say what each library call returns;
    - Python [str] values are lists of code points ([list Z]), [bytes] values
      are lists of octets ([list Z] with values in 0..255);
    - JSON-compatible Python values (the dictionaries built and returned by
      [fetch]) are the inductive [json], dictionaries being association lists
      in insertion order, as Python dicts are. *)

From Stdlib Require Import ZArith List String Ascii Bool Lia.
Import ListNotations.
Open Scope Z_scope.
Set Warnings "-register-all".

(** ** Python values *)

Definition str := list Z.

(** ASCII literal to Python [str]. *)
Definition s (x : string) : str :=
  map (fun a => Z.of_nat (nat_of_ascii a)) (list_ascii_of_string x).

Fixpoint str_eqb (a b : str) : bool :=
  match a, b with
  | [], [] => true
  | x :: a', y :: b' => (x =? y) && str_eqb a' b'
  | _, _ => false
  end.

(** Python exceptions that can leave the functions of the module. *)
Inductive exn :=
| KeyError (key : str)
| TypeError (msg : str)
| AttributeError (msg : str)
| ValueError (msg : str)
| UnicodeDecodeError
| UnicodeEncodeError
| OSError (msg : str)        (* e.g. FileNotFoundError when spawning a tool *)
| HTTPException (msg : str). (* failures raised by http.client / the socket *)

Inductive res (A : Type) :=
| Ret (a : A)
| Raise (e : exn).
Arguments Ret {A} a.
Arguments Raise {A} e.

Definition bind {A B} (m : res A) (k : A -> res B) : res B :=
  match m with
  | Ret a => k a
  | Raise e => Raise e
  end.

Notation "x <- m ;; k" := (bind m (fun x => k))
  (at level 61, m at next level, right associativity).
Notation "' p <- m ;; k" := (bind m (fun p => k))
  (at level 61, p pattern, m at next level, right associativity).

(** JSON-compatible Python values. A [float] is represented by its [repr]
    text, the only thing the module ever does with one being to print it. *)
Inductive json :=
| JNull
| JBool (b : bool)
| JInt (z : Z)
| JFloat (repr : str)
| JStr (t : str)
| JArr (l : list json)
| JObj (kv : list (str * json)).

(** [d[k]] on a dict: Python dicts have unique keys. *)
Fixpoint dict_get (d : list (str * json)) (k : str) : option json :=
  match d with
  | [] => None
  | (k', v) :: d' => if str_eqb k k' then Some v else dict_get d' k
  end.

(** [d[k] = v]: updates in place an existing key, appends a new one. *)
Fixpoint dict_set (d : list (str * json)) (k : str) (v : json)
  : list (str * json) :=
  match d with
  | [] => [(k, v)]
  | (k', v') :: d' =>
      if str_eqb k k' then (k', v) :: d' else (k', v') :: dict_set d' k v
  end.

Definition dict_keys (d : list (str * json)) : list str := map fst d.

(** [k in d] *)
Definition dict_has (d : list (str * json)) (k : str) : bool :=
  match dict_get d k with Some _ => true | None => false end.

(** Python truthiness of a JSON value. *)
Definition truthy (v : json) : bool :=
  match v with
  | JNull => false
  | JBool b => b
  | JInt z => negb (z =? 0)
  | JFloat r => negb (str_eqb r (s "0.0") || str_eqb r (s "-0.0"))
  | JStr t => match t with [] => false | _ => true end
  | JArr l => match l with [] => false | _ => true end
  | JObj kv => match kv with [] => false | _ => true end
  end.

(** ** String helpers, as the [str] methods they stand for *)

Fixpoint startswith (t p : str) : bool :=
  match p, t with
  | [], _ => true
  | x :: p', y :: t' => (x =? y) && startswith t' p'
  | _ :: _, [] => false
  end.

(** [p in t] *)
Fixpoint contains (t p : str) : bool :=
  startswith t p || match t with [] => false | _ :: t' => contains t' p end.

Definition mem (c : Z) (t : str) : bool := existsb (Z.eqb c) t.

(** [t.find(c)] for a one-character [c], as an option index. *)
Fixpoint find_char (c : Z) (t : str) : option nat :=
  match t with
  | [] => None
  | x :: t' =>
      if x =? c then Some 0%nat
      else option_map S (find_char c t')
  end.

(** [t.partition(c)] for a one-character separator. *)
Fixpoint partition_char (c : Z) (t : str) : str * bool * str :=
  match t with
  | [] => ([], false, [])
  | x :: t' =>
      if x =? c then ([], true, t')
      else let '(a, f, b) := partition_char c t' in (x :: a, f, b)
  end.

(** [t.rpartition(c)] for a one-character separator. *)
Definition rpartition_char (c : Z) (t : str) : str * bool * str :=
  let '(a, f, b) := partition_char c (rev t) in
  if f then (rev b, true, rev a) else ([], false, t).

Definition is_ascii_upper (c : Z) : bool := (65 <=? c) && (c <=? 90).
Definition is_ascii_lower (c : Z) : bool := (97 <=? c) && (c <=? 122).
Definition is_ascii_digit (c : Z) : bool := (48 <=? c) && (c <=? 57).
Definition is_ascii_alpha (c : Z) : bool := is_ascii_upper c || is_ascii_lower c.

(** [str.lower()] on the ASCII range; other code points are kept. *)
Definition lower (t : str) : str :=
  map (fun c => if is_ascii_upper c then c + 32 else c) t.

Fixpoint concat_str (l : list str) : str :=
  match l with [] => [] | x :: l' => x ++ concat_str l' end.

Fixpoint join (sep : str) (l : list str) : str :=
  match l with
  | [] => []
  | [x] => x
  | x :: l' => x ++ sep ++ join sep l'
  end.

(** Decimal digits of a non-negative integer, by fuel on the digit count. *)
Fixpoint digits_aux (fuel : nat) (n : Z) (acc : str) : str :=
  match fuel with
  | O => acc
  | S f =>
      let acc' := (48 + n mod 10) :: acc in
      if n <? 10 then acc' else digits_aux f (n / 10) acc'
  end.

(** [str(n)] for an [int]. *)
Definition z_to_str (n : Z) : str :=
  let m := Z.abs n in
  let ds := digits_aux (S (Z.to_nat (Z.log2_up (m + 1)))) m [] in
  if n <? 0 then 45 :: ds else ds.

(** [int(t)] for a non-empty all-ASCII-digit [t]. *)
Definition str_to_z (t : str) : Z :=
  fold_left (fun acc c => acc * 10 + (c - 48)) t 0.

Definition hex_digit (n : Z) : Z := if n <? 10 then 48 + n else 87 + n.

(** ['{0:04x}'.format(n)] for [0 <= n < 0x10000]. *)
Definition hex4 (n : Z) : str :=
  [hex_digit (Z.shiftr n 12 mod 16); hex_digit (Z.shiftr n 8 mod 16);
   hex_digit (Z.shiftr n 4 mod 16); hex_digit (n mod 16)].

(** ** [json.dumps] with its default arguments

    [ensure_ascii=True], separators [', '] and [': ']. The string encoder is
    [py_encode_basestring_ascii]: the characters of [ESCAPE_DCT] get their
    short escape, every other character outside the printable ASCII range
    ['  '..'~'] becomes [\uXXXX] (a surrogate pair above the BMP). *)
Definition u_escape (n : Z) : str := [92; 117] ++ hex4 n.

Definition dumps_char (c : Z) : str :=
  if c =? 34 then [92; 34]
  else if c =? 92 then [92; 92]
  else if c =? 10 then [92; 110]
  else if c =? 13 then [92; 114]
  else if c =? 9 then [92; 116]
  else if c =? 8 then [92; 98]
  else if c =? 12 then [92; 102]
  else if (32 <=? c) && (c <=? 126) then [c]
  else if c <? 65536 then u_escape c
  else
    let n := c - 65536 in
    u_escape (Z.lor 55296 (Z.land (Z.shiftr n 10) 1023))
      ++ u_escape (Z.lor 56320 (Z.land n 1023)).

Definition dumps_str (t : str) : str := [34] ++ concat_str (map dumps_char t) ++ [34].

(** The encoder's [floatstr] (with [allow_nan]): [NaN], [Infinity] and
    [-Infinity] for the non-finite floats, [float.__repr__] otherwise. *)
Definition float_dumps (r : str) : str :=
  if str_eqb r (s "nan") then s "NaN"
  else if str_eqb r (s "inf") then s "Infinity"
  else if str_eqb r (s "-inf") then s "-Infinity"
  else r.

Fixpoint json_dumps (v : json) : str :=
  match v with
  | JNull => s "null"
  | JBool true => s "true"
  | JBool false => s "false"
  | JInt z => z_to_str z
  | JFloat r => float_dumps r
  | JStr t => dumps_str t
  | JArr l => [91] ++ join (s ", ") (map json_dumps l) ++ [93]
  | JObj kv =>
      [123] ++ join (s ", ") (map (fun kv => dumps_str (fst kv) ++ s ": " ++ json_dumps (snd kv)) kv)
      ++ [125]
  end.

(** ** UTF-8, as [str.encode()] and [bytes.decode('utf-8')] (strict) *)

Definition in_range (lo hi b : Z) : bool := (lo <=? b) && (b <=? hi).

Definition cont (b : Z) : Z := Z.land b 63.

Fixpoint decode_utf8 (bs : list Z) : option str :=
  match bs with
  | [] => Some []
  | b0 :: r0 =>
      if b0 <? 128 then option_map (cons b0) (decode_utf8 r0)
      else if in_range 194 223 b0 then
        match r0 with
        | b1 :: r1 =>
            if in_range 128 191 b1 then
              option_map (cons (Z.lor (Z.shiftl (Z.land b0 31) 6) (cont b1)))
                (decode_utf8 r1)
            else None
        | [] => None
        end
      else if in_range 224 239 b0 then
        match r0 with
        | b1 :: b2 :: r2 =>
            let lo := if b0 =? 224 then 160 else 128 in
            let hi := if b0 =? 237 then 159 else 191 in
            if in_range lo hi b1 && in_range 128 191 b2 then
              option_map
                (cons (Z.lor (Z.shiftl (Z.land b0 15) 12)
                        (Z.lor (Z.shiftl (cont b1) 6) (cont b2))))
                (decode_utf8 r2)
            else None
        | _ => None
        end
      else if in_range 240 244 b0 then
        match r0 with
        | b1 :: b2 :: b3 :: r3 =>
            let lo := if b0 =? 240 then 144 else 128 in
            let hi := if b0 =? 244 then 143 else 191 in
            if in_range lo hi b1 && in_range 128 191 b2 && in_range 128 191 b3
            then
              option_map
                (cons (Z.lor (Z.shiftl (Z.land b0 7) 18)
                        (Z.lor (Z.shiftl (cont b1) 12)
                          (Z.lor (Z.shiftl (cont b2) 6) (cont b3)))))
                (decode_utf8 r3)
            else None
        | _ => None
        end
      else None
  end.

(** The UTF-8 bytes of one code point; a lone surrogate has none. *)
Definition utf8_char (c : Z) : option (list Z) :=
  if c <? 128 then Some [c]
  else if c <? 2048 then
    Some [Z.lor 192 (Z.shiftr c 6); Z.lor 128 (Z.land c 63)]
  else if in_range 55296 57343 c then None
  else if c <? 65536 then
    Some [Z.lor 224 (Z.shiftr c 12); Z.lor 128 (Z.land (Z.shiftr c 6) 63);
          Z.lor 128 (Z.land c 63)]
  else
    Some [Z.lor 240 (Z.shiftr c 18); Z.lor 128 (Z.land (Z.shiftr c 12) 63);
          Z.lor 128 (Z.land (Z.shiftr c 6) 63); Z.lor 128 (Z.land c 63)].

(** [str.encode()] raises on a lone surrogate. *)
Fixpoint encode_utf8 (t : str) : option (list Z) :=
  match t with
  | [] => Some []
  | c :: t' =>
      match utf8_char c, encode_utf8 t' with
      | Some e, Some r => Some (e ++ r)
      | _, _ => None
      end
  end.

(** ** [base64.b64encode(b).decode('utf-8')] *)

Definition b64_char (n : Z) : Z :=
  if n <? 26 then 65 + n
  else if n <? 52 then 71 + n
  else if n <? 62 then n - 4
  else if n =? 62 then 43 else 47.

Fixpoint b64encode (bs : list Z) : str :=
  match bs with
  | [] => []
  | [a] =>
      [b64_char (Z.shiftr a 2); b64_char (Z.shiftl (Z.land a 3) 4); 61; 61]
  | [a; b] =>
      [b64_char (Z.shiftr a 2);
       b64_char (Z.lor (Z.shiftl (Z.land a 3) 4) (Z.shiftr b 4));
       b64_char (Z.shiftl (Z.land b 15) 2); 61]
  | a :: b :: c :: r =>
      [b64_char (Z.shiftr a 2);
       b64_char (Z.lor (Z.shiftl (Z.land a 3) 4) (Z.shiftr b 4));
       b64_char (Z.lor (Z.shiftl (Z.land b 15) 2) (Z.shiftr c 6));
       b64_char (Z.land c 63)] ++ b64encode r
  end.

(** ** [urllib.parse.urlparse] and the [hostname] and [port] properties

    Followed from CPython's [urllib/parse.py]: [urlsplit] strips leading C0
    control characters and spaces, removes tab, CR and LF, splits off the
    scheme, the netloc, the fragment and the query; [urlparse] then splits
    [;params] off the path for the schemes of [uses_params]. The checks that
    only concern non-ASCII netlocs ([_checknetloc]) and the validation of a
    bracketed IP literal are not modelled. *)
Record parse_result := {
  pr_scheme : str; pr_netloc : str; pr_path : str;
  pr_params : str; pr_query : str; pr_fragment : str }.

Definition is_scheme_char (c : Z) : bool :=
  is_ascii_alpha c || is_ascii_digit c || (c =? 43) || (c =? 45) || (c =? 46).

Fixpoint lstrip_c0_space (t : str) : str :=
  match t with
  | c :: t' => if (0 <=? c) && (c <=? 32) then lstrip_c0_space t' else t
  | [] => []
  end.

(** [url.split(c, 1)] when [c in url] (and what stays otherwise). *)
Definition split_once (c : Z) (t : str) : str * str :=
  let '(a, _, b) := partition_char c t in (a, b).

(** [_splitnetloc(url, 2)] applied to the text after the leading [//]. *)
Fixpoint splitnetloc (t : str) : str * str :=
  match t with
  | [] => ([], [])
  | c :: t' =>
      if (c =? 47) || (c =? 63) || (c =? 35) then ([], t)
      else let '(a, b) := splitnetloc t' in (c :: a, b)
  end.

Definition split_scheme (url : str) : str * str :=
  match find_char 58 url, url with
  | Some (S _ as i), c0 :: _ =>
      if is_ascii_alpha c0 && forallb is_scheme_char (firstn i url)
      then (lower (firstn i url), skipn (S i) url)
      else ([], url)
  | _, _ => ([], url)
  end.

Definition urlsplit (url0 : str) : res (str * str * str * str * str) :=
  let url1 := filter (fun c => negb ((c =? 9) || (c =? 13) || (c =? 10)))
                (lstrip_c0_space url0) in
  let '(scheme, url2) := split_scheme url1 in
  let '(netloc, url3) :=
    match url2 with
    | 47 :: 47 :: r => splitnetloc r
    | _ => ([], url2)
    end in
  if (mem 91 netloc && negb (mem 93 netloc)) || (mem 93 netloc && negb (mem 91 netloc))
  then Raise (ValueError (s "Invalid IPv6 URL"))
  else
    let '(url4, fragment) := if mem 35 url3 then split_once 35 url3 else (url3, []) in
    let '(path, query) := if mem 63 url4 then split_once 63 url4 else (url4, []) in
    Ret (scheme, netloc, path, query, fragment).

Definition uses_params : list str :=
  [] :: map s ["ftp"; "hdl"; "prospero"; "http"; "imap"; "https"; "shttp";
               "rtsp"; "rtsps"; "rtspu"; "sip"; "sips"; "mms"; "sftp"; "tel"]%string.

(** [_splitparams(url)] *)
Definition splitparams (url : str) : str * str :=
  if mem 47 url then
    let '(before, _, last) := rpartition_char 47 url in
    if mem 59 last then
      let '(a, _, b) := partition_char 59 last in (before ++ [47] ++ a, b)
    else (url, [])
  else split_once 59 url.

Definition urlparse (url : str) : res parse_result :=
  '(scheme, netloc, path, query, fragment) <- urlsplit url ;;
  let '(path', params) :=
    if existsb (str_eqb scheme) uses_params && mem 59 path
    then splitparams path else (path, []) in
  Ret {| pr_scheme := scheme; pr_netloc := netloc; pr_path := path';
         pr_params := params; pr_query := query; pr_fragment := fragment |}.

(** [_hostinfo]: hostname and port text of the netloc. *)
Definition hostinfo (u : parse_result) : str * option str :=
  let '(_, _, hinfo) := rpartition_char 64 (pr_netloc u) in
  let '(_, have_open_br, bracketed) := partition_char 91 hinfo in
  let '(hostname, port) :=
    if have_open_br then
      let '(h, _, p) := partition_char 93 bracketed in
      let '(_, _, p') := partition_char 58 p in (h, p')
    else let '(h, _, p) := partition_char 58 hinfo in (h, p) in
  (hostname, match port with [] => None | _ => Some port end).

(** The [hostname] property. *)
Definition hostname (u : parse_result) : option str :=
  match fst (hostinfo u) with
  | [] => None
  | h => let '(a, pct, zone) := partition_char 37 h in
         Some (lower a ++ (if pct then [37] else []) ++ zone)
  end.

(** The [port] property: [ValueError] unless ASCII digits in 0..65535. *)
Definition port (u : parse_result) : res (option Z) :=
  match snd (hostinfo u) with
  | None => Ret None
  | Some p =>
      if forallb is_ascii_digit p then
        let n := str_to_z p in
        if (0 <=? n) && (n <=? 65535) then Ret (Some n)
        else Raise (ValueError (s "Port out of range 0-65535"))
      else Raise (ValueError (s "Port could not be cast to integer value"))
  end.

(** [urlparse] applied to a JSON value: [_coerce_args] passes a [str]
    through, decodes any falsy non-[str] value as [''] and calls [.decode]
    on a truthy one, which a JSON value does not have. *)
Definition urlparse_value (v : json) : res parse_result :=
  match v with
  | JStr t => urlparse t
  | _ => if truthy v then Raise (AttributeError (s "object has no attribute 'decode'"))
         else urlparse []
  end.

(** [repr] of a [str], for the f-string of a [ParseResult]: single quotes
    unless the text has a single and no double quote; backslash, the quote,
    tab, LF and CR escaped; other C0 characters and DEL as [\xNN]. *)
Definition py_repr (t : str) : str :=
  let q := if mem 39 t && negb (mem 34 t) then 34 else 39 in
  let esc c :=
    if c =? 92 then [92; 92]
    else if c =? q then [92; q]
    else if c =? 9 then [92; 116]
    else if c =? 10 then [92; 110]
    else if c =? 13 then [92; 114]
    else if (c <? 32) || (c =? 127) then
      [92; 120; hex_digit (c / 16); hex_digit (c mod 16)]
    else [c] in
  [q] ++ concat_str (map esc t) ++ [q].

Definition parse_result_str (u : parse_result) : str :=
  s "ParseResult(scheme=" ++ py_repr (pr_scheme u)
  ++ s ", netloc=" ++ py_repr (pr_netloc u)
  ++ s ", path=" ++ py_repr (pr_path u)
  ++ s ", params=" ++ py_repr (pr_params u)
  ++ s ", query=" ++ py_repr (pr_query u)
  ++ s ", fragment=" ++ py_repr (pr_fragment u) ++ s ")".

(** [parameters[k]]: a [KeyError] on a dict without [k], a [TypeError] on
    a value that is not a dict. *)
Definition subscript (v : json) (k : str) : res json :=
  match v with
  | JObj d => match dict_get d k with
              | Some x => Ret x
              | None => Raise (KeyError k)
              end
  | JArr _ | JStr _ => Raise (TypeError (s "indices must be integers"))
  | _ => Raise (TypeError (s "object is not subscriptable"))
  end.

(** [Fetcher._parse_resource]: [(url, port, fetchError)]. *)
Definition parse_resource (parameters : json)
  : res (option parse_result * option Z * option json) :=
  match subscript parameters (s "resource") with
  | Raise (KeyError _) =>
      Ret (None, None, Some (JObj [
        (s "statusText", JStr (s "No " ++ [34] ++ s "resource" ++ [34] ++ s " in parameters."));
        (s "parameterKeys",
          JArr (match parameters with
                | JObj d => map JStr (dict_keys d)
                | _ => [] end))]))
  | Raise e => Raise e
  | Ret resource =>
      url <- urlparse_value resource ;;
      match hostname url with
      | None =>
          Ret (None, None, Some (JObj [
            (s "statusText", JStr (s "No host in parameters.resource"));
            (s "resource", resource);
            (s "url", JStr (parse_result_str url))]))
      | Some _ =>
          p <- port url ;;
          Ret (Some url, Some (match p with None => 443 | Some n => n end), None)
      end
  end.

(** ** Line splitting *)

(** The line boundaries of [str.splitlines]. *)
Definition is_line_boundary (c : Z) : bool :=
  (c =? 10) || (c =? 11) || (c =? 12) || (c =? 13) || (c =? 28) || (c =? 29)
  || (c =? 30) || (c =? 133) || (c =? 8232) || (c =? 8233).

(** [t.splitlines(True)]; [cur] is the current line, reversed. *)
Fixpoint splitlines_aux (t cur : str) : list str :=
  match t with
  | [] => match cur with [] => [] | _ => [rev cur] end
  | 13 :: 10 :: t' => rev (10 :: 13 :: cur) :: splitlines_aux t' []
  | c :: t' =>
      if is_line_boundary c then rev (c :: cur) :: splitlines_aux t' []
      else splitlines_aux t' (c :: cur)
  end.

Definition splitlines_keepends (t : str) : list str := splitlines_aux t [].

(** Successive [file.readline()] results of a file opened in text mode:
    universal newlines turn [\r\n] and [\r] into [\n]. *)
Fixpoint readlines_aux (t cur : str) : list str :=
  match t with
  | [] => match cur with [] => [] | _ => [rev cur] end
  | 13 :: 10 :: t' => rev (10 :: cur) :: readlines_aux t' []
  | c :: t' =>
      if (c =? 10) || (c =? 13) then rev (10 :: cur) :: readlines_aux t' []
      else readlines_aux t' (c :: cur)
  end.

Definition readlines (t : str) : list str := readlines_aux t [].

(** [line.startswith('--') and 'BEGIN CERTIFICATE' in line] *)
Definition is_begin_line (line : str) : bool :=
  startswith line (s "--") && contains line (s "BEGIN CERTIFICATE").

Definition is_end_line (line : str) : bool :=
  startswith line (s "--") && contains line (s "END CERTIFICATE").

(** ** Trust bundle: [Fetcher.keychain_PEM]

    macOS [security export] is run once per keychain of [_keychains]. A run
    either fails to start (the exception of [subprocess.run]) or completes
    with a return code and its standard output; the standard error is not
    captured. *)
Record completed_process := { returncode : Z; stdout : str }.

(** The [Path] of each of the two entries of [Fetcher._keychains], with
    [_rootPath] the root [/]. *)
Definition keychains : list str :=
  [s "/System/Library/Keychains/SystemRootCertificates.keychain";
   s "/Library/Keychains/System.keychain"].

(** [securityRun] of each keychain, from the environment. *)
Definition security_tool := str -> res completed_process.

(** The PEM file starts empty; for each keychain the standard output of the
    run is appended ([pemPath.open('a')]); then the lines that begin a
    certificate are counted (and only printed). The result is the text in
    the file at [pemPath] and the printed count. *)
Fixpoint append_exports (security : security_tool) (ks : list str) (file : str)
  : res str :=
  match ks with
  | [] => Ret file
  | k :: ks' =>
      run <- security k ;;
      append_exports security ks' (file ++ stdout run)
  end.

Definition count_certificates (file : str) : Z :=
  Z.of_nat (List.length (filter is_begin_line (readlines file))).

Definition keychain_PEM (security : security_tool) : res (str * Z) :=
  file <- append_exports security keychains [] ;;
  Ret (file, count_certificates file).

(** ** The outside world of a [fetch] call *)

(** [HTTPSConnection(host, port=port, context=...)] and [connect()]: either
    may raise, [error] being the text of the exception. *)
Inductive connect_outcome :=
| CtorFails (error : str)
| ConnectFails (error : str)
| Connects.

(** What the server answers: [status], [reason], [getheaders()] and the
    bytes of [read()]; or http.client / the socket raises while the request
    is written or the response read. *)
Record response := {
  resp_status : Z; resp_reason : str;
  resp_headers : list (str * str); resp_body : list Z }.

Inductive http_outcome :=
| HttpRaises (e : exn)
| Responds (r : response).

Record world := {
  w_connect : connect_outcome;
  (** [connection.sock.getpeercert(True)] *)
  w_peercert : option (list Z);
  w_http : http_outcome;
  (** standard output of [openssl s_client], or the exception of spawning it *)
  w_s_client : res str;
  (** the run of [openssl x509] *)
  w_x509 : res unit }.

(** [json.loads] of the standard library: a value, a [JSONDecodeError]
    (message, line, column), or another exception (a [RecursionError] on
    very deeply nested input). *)
Record decode_error := { de_msg : str; de_lineno : Z; de_colno : Z }.

Inductive loads_outcome :=
| Loaded (v : json)
| Malformed (e : decode_error)
| LoadsRaises (e : exn).

(** ** The pieces of [Fetcher.fetch] *)

(** [Fetcher._connect]: [None] on success, else the [fetchError] dict. *)
Definition connect (w : world) (host : str) (port : Z) : option (list (str * json)) :=
  let where_ := s "HTTPSConnection(" ++ host ++ s "," ++ z_to_str port ++ s ",)" in
  match w_connect w with
  | CtorFails error => Some [(s "statusText", JStr (where_ ++ s " " ++ error))]
  | ConnectFails error =>
      Some [(s "statusText", JStr (where_ ++ s ".connect() " ++ error))]
  | Connects => None
  end.

(** [Fetcher.get_peer_certificate]: [len(peerCertBinary)] raises when the
    socket has no peer certificate; the thumbprint is only logged. *)
Definition get_peer_certificate (w : world) : res (str * Z) :=
  match w_peercert w with
  | None => Raise (TypeError (s "object of type 'NoneType' has no len()"))
  | Some der => Ret (b64encode der, Z.of_nat (List.length der))
  end.

(** The calls [_request] makes on the connection object. *)
Inductive conn_call :=
| PutRequest (method url : str)
| PutHeader (header : str) (value : json)
| EndHeaders (body : option (list Z))
| Send (data : list Z).

(** [options = parameters['options']], [{}] on a [KeyError]. *)
Definition get_options (parameters : json) : res json :=
  match subscript parameters (s "options") with
  | Raise (KeyError _) => Ret (JObj [])
  | r => r
  end.

(** [options.get(k)]: only a dict has [.get]. *)
Definition options_get (options : json) (k : str) : res (option json) :=
  match options with
  | JObj d => Ret (dict_get d k)
  | _ => Raise (AttributeError (s "object has no attribute 'get'"))
  end.

(** [k in options] *)
Definition options_has (options : json) (k : str) : res bool :=
  match options with
  | JObj d => Ret (dict_has d k)
  | JArr l => Ret (existsb (fun v => match v with JStr t => str_eqb t k | _ => false end) l)
  | JStr t => Ret (contains t k)
  | _ => Raise (TypeError (s "argument of type is not iterable"))
  end.

(** [v.encode()]: only a [str] has it; a lone surrogate raises. *)
Definition py_encode (v : json) : res (list Z) :=
  match v with
  | JStr t => match encode_utf8 t with
              | Some b => Ret b
              | None => Raise UnicodeEncodeError
              end
  | _ => Raise (AttributeError (s "object has no attribute 'encode'"))
  end.

(** The request line, headers and body [_request] writes, in order. *)
Definition request_calls (parameters : json) : res (list conn_call) :=
  options <- get_options parameters ;;
  method <- options_get options (s "method") ;;
  resource <- subscript parameters (s "resource") ;;
  method_text <-
    match method with
    | None | Some JNull => Ret (s "GET")
    | Some (JStr m) => Ret m
    | Some _ => Raise (TypeError (s "expected string or bytes-like object"))
    end ;;
  url_text <-
    match resource with
    | JStr r => Ret r
    | _ => Raise (TypeError (s "expected string or bytes-like object"))
    end ;;
  has_body <- options_has options (s "body") ;;
  has_body_object <- options_has options (s "bodyObject") ;;
  let content_type :=
    if has_body || has_body_object
    then [PutHeader (s "Content-Type") (JStr (s "application/json"))] else [] in
  headers <-
    match subscript options (s "headers") with
    | Raise (KeyError _) => Ret []
    | Raise e => Raise e
    | Ret (JObj hs) => Ret (map (fun hv => PutHeader (fst hv) (snd hv)) hs)
    | Ret _ => Raise (AttributeError (s "object has no attribute 'items'"))
    end ;;
  body <-
    (if has_body then
       b <- subscript options (s "body") ;; e <- py_encode b ;; Ret (Some e)
     else if has_body_object then
       o <- subscript options (s "bodyObject") ;;
       e <- py_encode (JStr (json_dumps o)) ;; Ret (Some e)
     else Ret None) ;;
  Ret ([PutRequest method_text url_text] ++ content_type ++ headers
       ++ [EndHeaders body; Send []]).

(** The [details] dict of a response; [dict(response.getheaders())] keeps
    the last value of a repeated header. *)
Definition details_of (r : response) : list (str * json) :=
  [(s "status", JInt (resp_status r));
   (s "statusText", JStr (resp_reason r));
   (s "headers",
     JObj (fold_left (fun d hv => dict_set d (fst hv) (JStr (snd hv)))
             (resp_headers r) []))].

(** [Fetcher._request]: the calls are made, then the response is read and
    its body decoded as UTF-8. *)
Definition request (w : world) (parameters : json) : res (str * response) :=
  _ <- request_calls parameters ;;
  match w_http w with
  | HttpRaises e => Raise e
  | Responds r =>
      match decode_utf8 (resp_body r) with
      | Some raw => Ret (raw, r)
      | None => Raise UnicodeDecodeError
      end
  end.

(** [Fetcher.openssl_thumbprint]: the PEM lines of the first certificate in
    the [s_client] output, [None] when there is none. *)
Fixpoint pem_lines (pem : option (list str)) (lines : list str) : option (list str) :=
  match lines with
  | [] => pem
  | line :: lines' =>
      let pem1 := if is_begin_line line then Some [] else pem in
      let pem2 := match pem1 with Some p => Some (p ++ [line]) | None => None end in
      if is_end_line line then pem2 else pem_lines pem2 lines'
  end.

Definition openssl_thumbprint (w : world) (serverName connectAddress : str)
  : res unit :=
  out <- w_s_client w ;;
  match pem_lines None (splitlines_keepends out) with
  | None => Raise (TypeError (s "object of type 'NoneType' has no len()"))
  | Some pem => w_x509 w
  end.

(** The values the closure [return_] reads from [fetch]'s frame. *)
Record captured := {
  peerCertEncoded : json; peerCertLength : json; fetchedRaw : json }.

Definition nothing_captured : captured :=
  {| peerCertEncoded := JNull; peerCertLength := JNull; fetchedRaw := JNull |}.

(** The inner function [return_] of [fetch]. *)
Definition return_ (c : captured) (status : option Z) (fetched : json)
  (details : list (str * json)) : json :=
  let with_status :=
    match status with
    | Some st => dict_set details (s "status") (JInt st)
    | None => details
    end in
  let base := [(s "peerCertificateDER", peerCertEncoded c);
               (s "peerCertificateLength", peerCertLength c);
               (s "fetchedRaw", fetchedRaw c)] in
  match fetched with
  | JNull => JObj (base ++ [(s "fetchError", JObj with_status)])
  | _ => JObj (base ++ [(s "fetched", fetched); (s "fetchedDetails", JObj with_status)])
  end.

(** The [netloc] part used in the [openssl] address when the URL has a port. *)
Definition host_text (u : parse_result) : str :=
  match hostname u with Some h => h | None => s "None" end.

Section Fetch.

Variable json_loads : str -> loads_outcome.

(** [Fetcher._parse_JSON]: an empty [raw] is passed through unparsed. *)
Definition parse_JSON (raw : str) : res (json * option (list (str * json))) :=
  match raw with
  | [] => Ret (JStr raw, None)
  | _ =>
      match json_loads raw with
      | Loaded v => Ret (v, None)
      | Malformed e =>
          Ret (JNull, Some [
            (s "statusText", JStr (s "JSONDecodeError"));
            (s "headers", JObj [(s "msg", JStr (de_msg e));
                                (s "lineno", JInt (de_lineno e));
                                (s "colno", JInt (de_colno e))])])
      | LoadsRaises e => Raise e
      end
  end.

(** [Fetcher.fetch]. The log line [fetch() {url.hostname} {port}.] is
    evaluated before [fetchError] is tested. *)
Definition fetch (w : world) (parameters : json) : res json :=
  '(url, port_, fetchError) <- parse_resource parameters ;;
  match url with
  | None => Raise (AttributeError (s "'NoneType' object has no attribute 'hostname'"))
  | Some u =>
      let p := match port_ with Some n => n | None => 443 end in
      match fetchError with
      | Some (JObj fe) => Ret (return_ nothing_captured (Some 0) JNull fe)
      | Some _ => Ret (return_ nothing_captured (Some 0) JNull [])
      | None =>
          match connect w (host_text u) p with
          | Some fe => Ret (return_ nothing_captured (Some 1) JNull fe)
          | None =>
              '(enc, len) <- get_peer_certificate w ;;
              '(raw, r) <- request w parameters ;;
              let c := {| peerCertEncoded := JStr enc; peerCertLength := JInt len;
                          fetchedRaw := JStr raw |} in
              if 400 <=? resp_status r then Ret (return_ c None JNull (details_of r))
              else
                '(fetchedObject, fetchError') <- parse_JSON raw ;;
                match fetchError' with
                | Some fe => Ret (return_ c (Some 2) JNull fe)
                | None =>
                    po <- port u ;;
                    _ <- openssl_thumbprint w (host_text u)
                           (match po with
                            | None => host_text u ++ s ":" ++ z_to_str p
                            | Some _ => pr_netloc u
                            end) ;;
                    Ret (return_ c None fetchedObject (details_of r))
                end
          end
      end
  end.

End Fetch.

(** ** Reading the result envelope *)

(** [result.get(k)] on the dict [fetch] returns. *)
Definition field (r : json) (k : str) : option json :=
  match r with JObj d => dict_get d k | _ => None end.

Definition failure_shape (r : json) : Prop :=
  (exists e, field r (s "fetchError") = Some e)
  /\ field r (s "fetched") = None /\ field r (s "fetchedDetails") = None.

Definition success_shape (r : json) : Prop :=
  (exists v d, field r (s "fetched") = Some v /\ field r (s "fetchedDetails") = Some d)
  /\ field r (s "fetchError") = None.

(** A world in which the [openssl] cross-check runs to its end. *)
Definition cross_check_completes (w : world) : Prop :=
  exists out pem, w_s_client w = Ret out
    /\ pem_lines None (splitlines_keepends out) = Some pem
    /\ w_x509 w = Ret tt.

(** ** Concrete inputs for the examples *)

(** [json.loads] on the texts the examples use: [{}] and [null] parse,
    anything else is rejected at line 1, column 1. *)
Definition loads_example (t : str) : loads_outcome :=
  if str_eqb t (s "{}") then Loaded (JObj [])
  else if str_eqb t (s "null") then Loaded JNull
  else Malformed {| de_msg := s "Expecting value"; de_lineno := 1; de_colno := 1 |}.

Definition s_client_output : str :=
  s "CONNECTED(00000003)" ++ [10] ++ s "-----BEGIN CERTIFICATE-----" ++ [10]
  ++ s "MIIB" ++ [10] ++ s "-----END CERTIFICATE-----" ++ [10].

Definition cert_der : list Z := [48; 130; 1; 10].

Definition response_with (status : Z) (body : list Z) : response :=
  {| resp_status := status; resp_reason := s "OK";
     resp_headers := [(s "Content-Type", s "application/json")];
     resp_body := body |}.

Definition world_with (r : response) : world :=
  {| w_connect := Connects; w_peercert := Some cert_der; w_http := Responds r;
     w_s_client := Ret s_client_output; w_x509 := Ret tt |}.

Definition params_get : json :=
  JObj [(s "resource", JStr (s "https://example.test/get"))].

Definition captured_with (raw : str) : captured :=
  {| peerCertEncoded := JStr (b64encode cert_der);
     peerCertLength := JInt 4; fetchedRaw := JStr raw |}.

(** The exception [fetch] raises when it logs [url.hostname] of a [None]. *)
Definition none_hostname_error : exn :=
  AttributeError (s "'NoneType' object has no attribute 'hostname'").

Definition failed_export : completed_process := {| returncode := 1; stdout := [] |}.

Definition url_of (t : str) : parse_result :=
  match urlparse t with
  | Ret u => u
  | Raise _ => {| pr_scheme := []; pr_netloc := []; pr_path := [];
                  pr_params := []; pr_query := []; pr_fragment := [] |}
  end.

Definition calls_of (parameters : json) : list conn_call :=
  match request_calls parameters with Ret c => c | Raise _ => [] end.

(** The [fetchError] dict of a [JSONDecodeError], after [return_] has set
    its [status] to 2. *)
Definition decode_error_details (e : decode_error) : list (str * json) :=
  [(s "statusText", JStr (s "JSONDecodeError"));
   (s "headers", JObj [(s "msg", JStr (de_msg e));
                       (s "lineno", JInt (de_lineno e));
                       (s "colno", JInt (de_colno e))]);
   (s "status", JInt 2)].

Definition params_with_options (options : list (str * json)) : json :=
  JObj [(s "resource", JStr (s "https://example.test/post"));
        (s "options", JObj options)].

(** ** [Fetcher.fetch_JSON], the earlier request path that nothing calls

    It builds a [urllib.request.Request] from [parameters['resource']] and
    the options, opens an [HTTPSConnection] to the given host and port, and
    then reads [details['status']] of the dict [details], which it has just
    set to [{}]: [opened] is never assigned a response. *)

(** [str.isspace()] *)
Definition is_py_space (c : Z) : bool :=
  ((9 <=? c) && (c <=? 13)) || ((28 <=? c) && (c <=? 32)) || (c =? 133)
  || (c =? 160) || (c =? 5760) || ((8192 <=? c) && (c <=? 8202))
  || (c =? 8232) || (c =? 8233) || (c =? 8239) || (c =? 8287) || (c =? 12288).

Fixpoint lstrip_space (t : str) : str :=
  match t with
  | c :: t' => if is_py_space c then lstrip_space t' else t
  | [] => []
  end.

(** [t.strip()] *)
Definition strip (t : str) : str := rev (lstrip_space (rev (lstrip_space t))).

(** [repr(v)] of a JSON-compatible value. *)
Fixpoint py_repr_value (v : json) : str :=
  match v with
  | JNull => s "None"
  | JBool true => s "True"
  | JBool false => s "False"
  | JInt z => z_to_str z
  | JFloat r => r
  | JStr t => py_repr t
  | JArr l => [91] ++ join (s ", ") (map py_repr_value l) ++ [93]
  | JObj kv =>
      [123] ++ join (s ", ") (map (fun kv => py_repr (fst kv) ++ s ": " ++ py_repr_value (snd kv)) kv)
      ++ [125]
  end.

(** [str(v)] *)
Definition py_str_value (v : json) : str :=
  match v with JStr t => t | _ => py_repr_value v end.

(** [urllib.parse.unwrap]: [str(url).strip()], then the [<...>] and [URL:]
    wrappers removed. *)
Definition unwrap (v : json) : str :=
  let url := strip (py_str_value v) in
  let url := match url with
             | 60 :: r => match rev r with 62 :: m => strip (rev m) | _ => url end
             | _ => url
             end in
  if startswith url (s "URL:") then strip (skipn 4 url) else url.

(** [_splittag]: the text after the last [#] is the fragment. *)
Definition splittag (url : str) : str * option str :=
  let '(path, delim, tag) := rpartition_char 35 url in
  if delim then (path, Some tag) else (url, None).

(** The text before the first [/] or [:], and the rest. *)
Fixpoint break_slash_colon (t : str) : str * str :=
  match t with
  | [] => ([], [])
  | c :: t' =>
      if (c =? 47) || (c =? 58) then ([], t)
      else let '(a, b) := break_slash_colon t' in (c :: a, b)
  end.

(** [_splittype]: a match of the regular expression [([^/:]+):] at the
    start of the URL gives the scheme, lowercased, and the rest. *)
Definition splittype (url : str) : option (str * str) :=
  match break_slash_colon url with
  | ((_ :: _) as scheme, 58 :: data) => Some (lower scheme, data)
  | _ => None
  end.

(** The attributes of a [Request] that [fetch_JSON] sets or that can make
    it raise; [host] and [selector] are only logged. *)
Record url_request := {
  rq_full_url : str; rq_fragment : option str; rq_type : str;
  rq_method : option json; rq_data : option (list Z);
  rq_headers : list (str * json) }.

(** The [full_url] property: the fragment is put back when non-empty. *)
Definition full_url (rq : url_request) : str :=
  match rq_fragment rq with
  | Some ((_ :: _) as f) => rq_full_url rq ++ [35] ++ f
  | _ => rq_full_url rq
  end.

(** [urllib.request.Request(url)]: the [full_url] setter ([unwrap],
    [_splittag], [_parse], which raises on a URL without a type), then
    [request_host], which runs [urlparse] on [full_url]. *)
Definition urllib_request (url : json) : res url_request :=
  let '(u, fragment) := splittag (unwrap url) in
  match splittype u with
  | None =>
      let shown := match fragment with
                   | Some ((_ :: _) as f) => u ++ [35] ++ f
                   | _ => u end in
      Raise (ValueError (s "unknown url type: " ++ py_repr shown))
  | Some (type_, _) =>
      let rq := {| rq_full_url := u; rq_fragment := fragment; rq_type := type_;
                   rq_method := None; rq_data := None; rq_headers := [] |} in
      _ <- urlparse (full_url rq) ;;
      Ret rq
  end.

Definition upper_char (c : Z) : Z := if is_ascii_lower c then c - 32 else c.

(** [key.capitalize()] on the ASCII range. *)
Definition capitalize (t : str) : str :=
  match t with [] => [] | c :: t' => upper_char c :: lower t' end.

Definition set_method (rq : url_request) (m : json) : url_request :=
  {| rq_full_url := rq_full_url rq; rq_fragment := rq_fragment rq;
     rq_type := rq_type rq; rq_method := Some m; rq_data := rq_data rq;
     rq_headers := rq_headers rq |}.

Definition set_data (rq : url_request) (d : list Z) : url_request :=
  {| rq_full_url := rq_full_url rq; rq_fragment := rq_fragment rq;
     rq_type := rq_type rq; rq_method := rq_method rq; rq_data := Some d;
     rq_headers := rq_headers rq |}.

(** [request.add_header(key, val)]: [self.headers[key.capitalize()] = val]. *)
Definition add_header (rq : url_request) (key : str) (val : json) : url_request :=
  {| rq_full_url := rq_full_url rq; rq_fragment := rq_fragment rq;
     rq_type := rq_type rq; rq_method := rq_method rq; rq_data := rq_data rq;
     rq_headers := dict_set (rq_headers rq) (capitalize key) val |}.

(** The [Request] of [fetch_JSON] and its options, up to the log line. *)
Definition fetch_JSON_request (parameters : json) : res url_request :=
  resource <- subscript parameters (s "resource") ;;
  rq <- urllib_request resource ;;
  has_options <- options_has parameters (s "options") ;;
  if negb has_options then Ret rq else (
  options <- subscript parameters (s "options") ;;
  has_method <- options_has options (s "method") ;;
  rq <- (if has_method then
           m <- subscript options (s "method") ;; Ret (set_method rq m)
         else Ret rq) ;;
  has_body <- options_has options (s "body") ;;
  rq <- (if has_body then
           b <- subscript options (s "body") ;; e <- py_encode b ;;
           Ret (add_header (set_data rq e) (s "Content-Type") (JStr (s "application/json")))
         else Ret rq) ;;
  has_body_object <- options_has options (s "bodyObject") ;;
  rq <- (if has_body_object then
           o <- subscript options (s "bodyObject") ;;
           e <- py_encode (JStr (json_dumps o)) ;;
           Ret (add_header (set_data rq e) (s "Content-Type") (JStr (s "application/json")))
         else Ret rq) ;;
  has_headers <- options_has options (s "headers") ;;
  if has_headers then (
    hs <- subscript options (s "headers") ;;
    match hs with
    | JObj d => Ret (fold_left (fun rq hv => add_header rq (fst hv) (snd hv)) d rq)
    | _ => Raise (AttributeError (s "object has no attribute 'items'"))
    end)
  else Ret rq).

Section Fetch_JSON.

(** The exception [HTTPSConnection(...)] or [connect()] raised, from its
    text, and Python's [v >= 400] on a value. *)
Variable connection_error : str -> exn.
Variable py_ge_400 : json -> res bool.

(** [Fetcher.fetch_JSON]. The clause [except urllib.error.HTTPError] never
    applies: [http.client] and the socket do not raise that exception, so
    any failure of the connection leaves the function. After the connection
    [details] is [{}] and [raw] is [None]. *)
Definition fetch_JSON (w : world) (parameters : json) (host : str) (port : Z)
  : res json :=
  _ <- fetch_JSON_request parameters ;;
  details <-
    match w_connect w with
    | CtorFails error | ConnectFails error => Raise (connection_error error)
    | Connects => Ret (@nil (str * json))
    end ;;
  status <- subscript (JObj details) (s "status") ;;
  failed <- py_ge_400 status ;;
  if failed then Ret (JObj [(s "fetchError", JObj details); (s "fetchedRaw", JNull)])
  else Ret (JObj [(s "fetched", JNull); (s "fetchedDetails", JObj details);
                  (s "fetchedRaw", JNull)]).

End Fetch_JSON.

(** ** Predicates for the further properties *)

(** Every [float] inside [v] has an ASCII [repr], as Python's always has. *)
Fixpoint floats_ascii (v : json) : bool :=
  match v with
  | JFloat r => forallb (fun c => (0 <=? c) && (c <? 128)) r
  | JArr l => forallb floats_ascii l
  | JObj kv => forallb (fun kv => floats_ascii (snd kv)) kv
  | _ => true
  end.

(** The value of the last header named [k] in a header list. *)
Definition last_header (hs : list (str * str)) (k : str) : option str :=
  fold_left (fun acc hv => if str_eqb k (fst hv) then Some (snd hv) else acc) hs None.

(** The characters of the base64 alphabet and its padding [=]. *)
Definition is_b64_char (c : Z) : bool :=
  is_ascii_alpha c || is_ascii_digit c || (c =? 43) || (c =? 47) || (c =? 61).

(** A line with neither certificate marker. *)
Definition plain_line (l : str) : Prop := is_begin_line l = false /\ is_end_line l = false.

(** A text of ASCII characters only. *)
Definition ascii_text (t : str) : Prop := Forall (fun c => 0 <= c < 128) t.

(** Every character of [t] occurs in [u]. *)
Definition chars_of (t u : str) : Prop := forall x, In x t -> In x u.

(** ** Lemmas about the pieces *)

Lemma field_return_DER c st f d :
  field (return_ c st f d) (s "peerCertificateDER") = Some (peerCertEncoded c).
Proof. destruct f; reflexivity. Qed.

Lemma field_return_length c st f d :
  field (return_ c st f d) (s "peerCertificateLength") = Some (peerCertLength c).
Proof. destruct f; reflexivity. Qed.

Lemma field_return_raw c st f d :
  field (return_ c st f d) (s "fetchedRaw") = Some (fetchedRaw c).
Proof. destruct f; reflexivity. Qed.

Lemma return_null_failure c st d :
  field (return_ c st JNull d) (s "fetchError")
    = Some (JObj (match st with Some n => dict_set d (s "status") (JInt n) | None => d end))
  /\ field (return_ c st JNull d) (s "fetched") = None
  /\ field (return_ c st JNull d) (s "fetchedDetails") = None.
Proof. repeat split. Qed.

Lemma return_null_failure_shape c st d : failure_shape (return_ c st JNull d).
Proof.
  destruct (return_null_failure c st d) as (H1 & H2 & H3).
  repeat split; eauto.
Qed.

Lemma return_value_success c st f d :
  f <> JNull ->
  field (return_ c st f d) (s "fetched") = Some f
  /\ field (return_ c st f d) (s "fetchedDetails")
       = Some (JObj (match st with Some n => dict_set d (s "status") (JInt n) | None => d end))
  /\ field (return_ c st f d) (s "fetchError") = None.
Proof. destruct f; intros H; [congruence | repeat split ..]. Qed.

(** What [_parse_resource] can return: no URL with an error dict, or a URL
    with a host, a port and no error. *)
Lemma parse_resource_cases p url port_ fe :
  parse_resource p = Ret (url, port_, fe) ->
  (url = None /\ exists d, fe = Some (JObj d))
  \/ (exists u n, url = Some u /\ port_ = Some n /\ fe = None /\ hostname u <> None).
Proof.
  unfold parse_resource.
  destruct (subscript p (s "resource")) as [resource|e].
  - destruct (urlparse_value resource) as [u|e]; simpl; [|discriminate].
    destruct (hostname u) eqn:H.
    + destruct (port u) as [po|e]; simpl; [|discriminate].
      intros [= <- <- <-]. right. exists u. eexists. repeat split.
      congruence.
    + intros [= <- <- <-]. left. eauto.
  - destruct e; try discriminate. intros [= <- <- <-]. left. eauto.
Qed.

Lemma connect_none w h n : connect w h n = None -> w_connect w = Connects.
Proof. unfold connect. destruct (w_connect w); congruence. Qed.

Lemma connect_some w h n fe : connect w h n = Some fe -> w_connect w <> Connects.
Proof. unfold connect. destruct (w_connect w); congruence. Qed.

Lemma get_peer_certificate_ret w enc len :
  get_peer_certificate w = Ret (enc, len) ->
  exists der, w_peercert w = Some der /\ enc = b64encode der
    /\ len = Z.of_nat (List.length der).
Proof.
  unfold get_peer_certificate. destruct (w_peercert w); [|discriminate].
  intros [= <- <-]. eauto.
Qed.

(** Every [Ret] that [fetch] produces after the connection is built by
    [return_] from the same captured certificate and raw body. *)
Lemma fetch_after_connect_shape json_loads w u p enc len raw rr r :
  (if 400 <=? resp_status rr then
     Ret (return_ {| peerCertEncoded := JStr enc; peerCertLength := JInt len;
                     fetchedRaw := JStr raw |} None JNull (details_of rr))
   else
     '(fetchedObject, fetchError') <- parse_JSON json_loads raw ;;
     match fetchError' with
     | Some fe => Ret (return_ {| peerCertEncoded := JStr enc; peerCertLength := JInt len;
                                  fetchedRaw := JStr raw |} (Some 2) JNull fe)
     | None =>
         po <- port u ;;
         _ <- openssl_thumbprint w (host_text u)
                (match po with
                 | None => host_text u ++ s ":" ++ z_to_str p
                 | Some _ => pr_netloc u
                 end) ;;
         Ret (return_ {| peerCertEncoded := JStr enc; peerCertLength := JInt len;
                         fetchedRaw := JStr raw |} None fetchedObject (details_of rr))
     end) = Ret r ->
  exists st f d,
    r = return_ {| peerCertEncoded := JStr enc; peerCertLength := JInt len;
                   fetchedRaw := JStr raw |} st f d.
Proof.
  destruct (400 <=? resp_status rr).
  - intros H. exists None, JNull, (details_of rr). congruence.
  - destruct (parse_JSON json_loads raw) as [[obj [fe|]]|e]; cbn [bind];
      [intros H; exists (Some 2), JNull, fe; congruence | | discriminate].
    destruct (port u) as [po|e]; simpl; [|discriminate].
    destruct (openssl_thumbprint _ _ _) as [[]|e]; simpl; [|discriminate].
    intros H. exists None, obj, (details_of rr). congruence.
Qed.

(** Claim C1. Of every result [fetch] returns: when the connection was
    established, [peerCertificateDER] is the base64 text of the peer
    certificate's DER bytes and [peerCertificateLength] their number, both
    non-null, whatever the later outcome (status >= 400, JSON error or
    success); they are null only when the connection was not established. *)
Theorem fetch_certificate_fields json_loads w parameters r :
  fetch json_loads w parameters = Ret r ->
  (w_connect w = Connects
   /\ exists der, w_peercert w = Some der
      /\ field r (s "peerCertificateDER") = Some (JStr (b64encode der))
      /\ field r (s "peerCertificateLength") = Some (JInt (Z.of_nat (List.length der))))
  \/ (w_connect w <> Connects
      /\ field r (s "peerCertificateDER") = Some JNull
      /\ field r (s "peerCertificateLength") = Some JNull).
Proof.
  unfold fetch.
  destruct (parse_resource parameters) as [[[url port_] fe]|e] eqn:P;
    cbn [bind]; [|discriminate].
  apply parse_resource_cases in P.
  destruct P as [[-> _] | (u & n & -> & -> & -> & _)]; [discriminate|].
  destruct (connect w (host_text u) n) as [fe|] eqn:C.
  - intros H. replace r with (return_ nothing_captured (Some 1) JNull fe) by congruence.
    right. apply connect_some in C.
    rewrite field_return_DER, field_return_length. auto.
  - apply connect_none in C.
    destruct (get_peer_certificate w) as [[enc len]|e] eqn:G; cbn [bind]; [|discriminate].
    apply get_peer_certificate_ret in G. destruct G as (der & Hder & -> & ->).
    destruct (request w parameters) as [[raw rr]|e]; cbn [bind]; [|discriminate].
    intros H. apply fetch_after_connect_shape in H.
    destruct H as (st & f & d & ->).
    left. split; [exact C|]. exists der.
    rewrite field_return_DER, field_return_length. auto.
Qed.

Lemma fetch_certificate_fields_witness :
  fetch loads_example (world_with (response_with 200 (s "{}"))) params_get
    = Ret (return_ (captured_with (s "{}")) None (JObj [])
             (details_of (response_with 200 (s "{}"))))
  /\ ((w_connect (world_with (response_with 200 (s "{}"))) = Connects
       /\ exists der, w_peercert (world_with (response_with 200 (s "{}"))) = Some der
          /\ field (return_ (captured_with (s "{}")) None (JObj [])
                      (details_of (response_with 200 (s "{}"))))
                (s "peerCertificateDER") = Some (JStr (b64encode der))
          /\ field (return_ (captured_with (s "{}")) None (JObj [])
                      (details_of (response_with 200 (s "{}"))))
                (s "peerCertificateLength")
               = Some (JInt (Z.of_nat (List.length der))))
      \/ (w_connect (world_with (response_with 200 (s "{}"))) <> Connects
          /\ field (return_ (captured_with (s "{}")) None (JObj [])
                      (details_of (response_with 200 (s "{}"))))
                (s "peerCertificateDER") = Some JNull
          /\ field (return_ (captured_with (s "{}")) None (JObj [])
                      (details_of (response_with 200 (s "{}"))))
                (s "peerCertificateLength") = Some JNull)).
Proof.
  split.
  - vm_compute. reflexivity.
  - apply (fetch_certificate_fields loads_example
             (world_with (response_with 200 (s "{}"))) params_get).
    vm_compute. reflexivity.
Defined.

(** Claim C5. When the parameters have no [resource], or a resource string
    whose URL has no host, [_parse_resource] returns [(None, None, error)]
    and [fetch] then raises [AttributeError] on [url.hostname] in its log
    line, instead of returning the failure envelope. *)
Theorem fetch_unparsable_resource_raises json_loads w parameters :
  (exists d, parameters = JObj d /\ dict_get d (s "resource") = None)
  \/ (exists t u, subscript parameters (s "resource") = Ret (JStr t)
        /\ urlparse t = Ret u /\ hostname u = None) ->
  fetch json_loads w parameters = Raise none_hostname_error.
Proof.
  intros [(d & -> & Hd) | (t & u & Hs & Hu & Hh)]; unfold fetch, parse_resource.
  - cbn [subscript]. rewrite Hd. reflexivity.
  - rewrite Hs. cbn [urlparse_value bind]. rewrite Hu. cbn [bind].
    rewrite Hh. reflexivity.
Qed.

Lemma fetch_unparsable_resource_raises_witness :
  fetch loads_example (world_with (response_with 200 (s "{}")))
    (JObj [(s "resource", JStr [])]) = Raise none_hostname_error.
Proof.
  apply fetch_unparsable_resource_raises. right.
  exists [], {| pr_scheme := []; pr_netloc := []; pr_path := [];
                pr_params := []; pr_query := []; pr_fragment := [] |}.
  split; [reflexivity | split; reflexivity].
Defined.

(** Claim C2. An exception leaves [fetch]: called with empty parameters,
    it raises [AttributeError] whatever the world. *)
Theorem fetch_empty_parameters_raises json_loads w :
  fetch json_loads w (JObj []) = Raise none_hostname_error.
Proof. reflexivity. Qed.

(** Claim C8. The [openssl] cross-check is not isolated: when the
    [s_client] output holds no certificate, [len(None)] raises and the
    [TypeError] leaves [fetch] in place of the result. *)
Theorem fetch_cross_check_failure_propagates :
  fetch loads_example
    {| w_connect := Connects; w_peercert := Some cert_der;
       w_http := Responds (response_with 200 (s "{}"));
       w_s_client := Ret (s "connect:errno=61" ++ [10]); w_x509 := Ret tt |}
    params_get
  = Raise (TypeError (s "object of type 'NoneType' has no len()")).
Proof. vm_compute. reflexivity. Qed.

(** ** UTF-8 round trip *)

Lemma lor_shiftl_small a b k :
  0 <= k -> 0 <= b < 2 ^ k -> Z.lor (Z.shiftl a k) b = Z.shiftl a k + b.
Proof.
  intros Hk Hb.
  assert (Hl : Z.land (Z.shiftl a k) b = 0).
  { apply Z.bits_inj'; intros i Hi. rewrite Z.land_spec, Z.bits_0.
    destruct (Z.lt_ge_cases i k) as [Hik|Hik].
    - rewrite Z.shiftl_spec_low; auto.
    - rewrite <- (Z.mod_small b (2 ^ k)) by lia.
      rewrite Z.mod_pow2_bits_high by lia. destruct (Z.testbit _ i); reflexivity. }
  rewrite <- Z.lxor_lor by exact Hl. rewrite Z.add_nocarry_lxor by exact Hl.
  reflexivity.
Qed.

Lemma lor_low a b k :
  0 <= k -> 0 <= b < 2 ^ k -> a mod 2 ^ k = 0 -> Z.lor a b = a + b.
Proof.
  intros Hk Hb Ha.
  assert (Ea : a = Z.shiftl (a / 2 ^ k) k).
  { rewrite Z.shiftl_mul_pow2 by lia.
    pose proof (Z.div_mod a (2 ^ k)). pose proof (Z.pow_pos_nonneg 2 k). lia. }
  rewrite Ea, lor_shiftl_small by lia. reflexivity.
Qed.

Lemma in_range_spec lo hi b : in_range lo hi b = true <-> lo <= b <= hi.
Proof. unfold in_range. rewrite andb_true_iff, !Z.leb_le. tauto. Qed.

Lemma land_7 x : Z.land x 7 = x mod 8.
Proof. exact (Z.land_ones x 3 ltac:(lia)). Qed.
Lemma land_15 x : Z.land x 15 = x mod 16.
Proof. exact (Z.land_ones x 4 ltac:(lia)). Qed.
Lemma land_31 x : Z.land x 31 = x mod 32.
Proof. exact (Z.land_ones x 5 ltac:(lia)). Qed.
Lemma land_63 x : Z.land x 63 = x mod 64.
Proof. exact (Z.land_ones x 6 ltac:(lia)). Qed.

Ltac bits_to_arith :=
  rewrite ?land_7, ?land_15, ?land_31, ?land_63;
  repeat match goal with
  | |- context [Z.shiftr ?x ?k] => rewrite (Z.shiftr_div_pow2 x k) by lia
  | |- context [Z.shiftl ?x ?k] => rewrite (Z.shiftl_mul_pow2 x k) by lia
  end;
  repeat match goal with
  | |- context [2 ^ ?k] =>
      let v := eval compute in (2 ^ k) in change (2 ^ k) with v
  end.

Ltac decide_ifs :=
  repeat match goal with
  | |- context [if ?b then _ else _] =>
      let E := fresh "E" in
      destruct b eqn:E;
      rewrite ?Z.ltb_lt, ?Z.ltb_ge, ?in_range_spec in E;
      try (exfalso; unfold in_range in E;
           rewrite ?andb_true_iff, ?andb_false_iff, ?Z.leb_le, ?Z.leb_gt in E;
           Z.to_euclidean_division_equations; lia)
  end.

Lemma utf8_char_2 b0 b1 :
  194 <= b0 <= 223 -> 128 <= b1 <= 191 ->
  utf8_char (Z.lor (Z.shiftl (Z.land b0 31) 6) (cont b1)) = Some [b0; b1].
Proof.
  intros H0 H1. unfold cont.
  rewrite lor_shiftl_small by (pose proof (Z.mod_pos_bound b1 64); bits_to_arith; lia).
  bits_to_arith.
  unfold utf8_char. decide_ifs.
  bits_to_arith.
  rewrite !lor_low with (k := 6) by (cbn; Z.to_euclidean_division_equations; lia).
  f_equal. f_equal; [|f_equal]; Z.to_euclidean_division_equations; lia.
Qed.

Lemma utf8_char_3 b0 b1 b2 :
  224 <= b0 <= 239 -> 128 <= b1 <= 191 -> (b0 = 224 -> 160 <= b1) ->
  (b0 = 237 -> b1 <= 159) -> 128 <= b2 <= 191 ->
  utf8_char (Z.lor (Z.shiftl (Z.land b0 15) 12)
               (Z.lor (Z.shiftl (cont b1) 6) (cont b2))) = Some [b0; b1; b2].
Proof.
  intros H0 H1 H224 H237 H2. unfold cont.
  rewrite (lor_shiftl_small (Z.land b1 63))
    by (bits_to_arith; Z.to_euclidean_division_equations; lia).
  rewrite lor_shiftl_small
    by (bits_to_arith; Z.to_euclidean_division_equations; lia).
  bits_to_arith.
  unfold utf8_char. decide_ifs.
  bits_to_arith.
  rewrite (lor_low 224 _ 4), (lor_low 128 _ 6), (lor_low 128 _ 6)
    by (cbn; Z.to_euclidean_division_equations; lia).
  f_equal. f_equal; [|f_equal; [|f_equal]]; Z.to_euclidean_division_equations; lia.
Qed.

Lemma utf8_char_4 b0 b1 b2 b3 :
  240 <= b0 <= 244 -> 128 <= b1 <= 191 -> (b0 = 240 -> 144 <= b1) ->
  (b0 = 244 -> b1 <= 143) -> 128 <= b2 <= 191 -> 128 <= b3 <= 191 ->
  utf8_char (Z.lor (Z.shiftl (Z.land b0 7) 18)
               (Z.lor (Z.shiftl (cont b1) 12)
                  (Z.lor (Z.shiftl (cont b2) 6) (cont b3))))
    = Some [b0; b1; b2; b3].
Proof.
  intros H0 H1 H240 H244 H2 H3. unfold cont.
  rewrite (lor_shiftl_small (Z.land b2 63))
    by (bits_to_arith; Z.to_euclidean_division_equations; lia).
  rewrite (lor_shiftl_small (Z.land b1 63))
    by (bits_to_arith; Z.to_euclidean_division_equations; lia).
  rewrite lor_shiftl_small
    by (bits_to_arith; Z.to_euclidean_division_equations; lia).
  bits_to_arith.
  unfold utf8_char. decide_ifs.
  bits_to_arith.
  rewrite (lor_low 240 _ 3), (lor_low 128 _ 6), (lor_low 128 _ 6), (lor_low 128 _ 6)
    by (cbn; Z.to_euclidean_division_equations; lia).
  f_equal. f_equal; [|f_equal; [|f_equal; [|f_equal]]];
    Z.to_euclidean_division_equations; lia.
Qed.

Lemma utf8_char_1 b0 : b0 < 128 -> utf8_char b0 = Some [b0].
Proof. intros H. unfold utf8_char. rewrite (proj2 (Z.ltb_lt _ _) H). reflexivity. Qed.

Lemma encode_cons c e t r :
  utf8_char c = Some e -> encode_utf8 t = Some r -> encode_utf8 (c :: t) = Some (e ++ r).
Proof. intros H1 H2. simpl. rewrite H1, H2. reflexivity. Qed.

Lemma range_cases (b1 x hi : Z) (c : bool) (d : bool) :
  (if c then x else 128) <= b1 <= (if d then hi else 191) ->
  x >= 128 -> hi <= 191 -> 128 <= b1 <= 191 /\ (c = true -> x <= b1) /\ (d = true -> b1 <= hi).
Proof. destruct c, d; intuition (try lia; discriminate). Qed.

(** Strict UTF-8 decoding followed by encoding gives the bytes back. *)
Lemma decode_encode_utf8 bs cs : decode_utf8 bs = Some cs -> encode_utf8 cs = Some bs.
Proof.
  enough (G : forall n bs cs, (List.length bs <= n)%nat ->
                decode_utf8 bs = Some cs -> encode_utf8 cs = Some bs)
    by (apply (G (List.length bs)); lia).
  clear bs cs. induction n as [|n IH]; intros bs cs Hlen H.
  { destruct bs; [injection H as <-; reflexivity | simpl in Hlen; lia]. }
  destruct bs as [|b0 r0]; [injection H as <-; reflexivity|].
  simpl in Hlen. cbn [decode_utf8] in H.
  destruct (b0 <? 128) eqn:E0.
  { apply Z.ltb_lt in E0.
    destruct (decode_utf8 r0) as [l|] eqn:D; [|discriminate].
    injection H as <-. apply (encode_cons b0 [b0] l r0); [now apply utf8_char_1|].
    apply IH; [lia|exact D]. }
  apply Z.ltb_ge in E0.
  destruct (in_range 194 223 b0) eqn:E2.
  { apply in_range_spec in E2.
    destruct r0 as [|b1 r1]; [discriminate|].
    destruct (in_range 128 191 b1) eqn:E1; [|discriminate]. apply in_range_spec in E1.
    destruct (decode_utf8 r1) as [l|] eqn:D; [|discriminate].
    injection H as <-. apply (encode_cons _ [b0; b1] l r1); [now apply utf8_char_2|].
    apply IH; [simpl in Hlen; lia|exact D]. }
  destruct (in_range 224 239 b0) eqn:E3.
  { apply in_range_spec in E3.
    destruct r0 as [|b1 [|b2 r2]]; try discriminate.
    destruct (in_range _ _ b1) eqn:E1; [|discriminate].
    destruct (in_range 128 191 b2) eqn:E2'; [|discriminate].
    apply in_range_spec in E1, E2'.
    destruct (decode_utf8 r2) as [l|] eqn:D; [|discriminate].
    injection H as <-.
    apply range_cases in E1; [|lia|lia]. destruct E1 as (E1 & E224 & E237).
    apply (encode_cons _ [b0; b1; b2] l r2).
    - apply utf8_char_3; auto.
      + intros ->. apply E224. reflexivity.
      + intros ->. apply E237. reflexivity.
    - apply IH; [simpl in Hlen; lia|exact D]. }
  destruct (in_range 240 244 b0) eqn:E4; [|discriminate].
  apply in_range_spec in E4.
  destruct r0 as [|b1 [|b2 [|b3 r3]]]; try discriminate.
  destruct (in_range _ _ b1) eqn:E1; [|discriminate].
  destruct (in_range 128 191 b2) eqn:E2'; [|discriminate].
  destruct (in_range 128 191 b3) eqn:E3'; [|discriminate].
  apply in_range_spec in E1, E2', E3'.
  destruct (decode_utf8 r3) as [l|] eqn:D; [|discriminate].
  injection H as <-.
  apply range_cases in E1; [|lia|lia]. destruct E1 as (E1 & E240 & E244).
  apply (encode_cons _ [b0; b1; b2; b3] l r3).
  - apply utf8_char_4; auto.
    + intros ->. apply E240. reflexivity.
    + intros ->. apply E244. reflexivity.
  - apply IH; [simpl in Hlen; lia|exact D].
Qed.

(** ** The trust bundle *)

(** Claim C3 (counterexample). [security export] fails on both keychains
    (return code 1, nothing on standard output), and [keychain_PEM] still
    returns normally, with an empty bundle of 0 certificates: no error is
    raised. *)
Lemma keychain_PEM_accepts_failed_empty_export :
  (forall k, exists run, (fun _ : str => Ret failed_export) k = Ret run /\ returncode run <> 0)
  /\ keychain_PEM (fun _ => Ret failed_export) = Ret ([], 0).
Proof.
  split.
  - intros k. exists failed_export. split; [reflexivity | discriminate].
  - reflexivity.
Qed.

(** Claim C3 (amended). [keychain_PEM] runs the export once per keychain; it
    raises only when a run cannot be started, and otherwise returns the
    concatenated standard outputs, whatever the return codes, with the
    count of [BEGIN CERTIFICATE] lines (which may be 0). *)
Theorem keychain_PEM_result security :
  keychain_PEM security =
  match security (s "/System/Library/Keychains/SystemRootCertificates.keychain") with
  | Raise e => Raise e
  | Ret r1 =>
      match security (s "/Library/Keychains/System.keychain") with
      | Raise e => Raise e
      | Ret r2 => Ret (stdout r1 ++ stdout r2, count_certificates (stdout r1 ++ stdout r2))
      end
  end.
Proof.
  unfold keychain_PEM, keychains. cbn [append_exports bind].
  destruct (security _) as [r1|e]; [|reflexivity].
  destruct (security _) as [r2|e]; reflexivity.
Qed.

(** ** Responses with status >= 400 *)

(** Claim C4 (counterexample). A 404 response whose body is the single
    byte 0xFF: decoding it as UTF-8 raises, so no failure envelope is
    returned. *)
Lemma fetch_404_non_utf8_body_raises :
  fetch loads_example (world_with (response_with 404 [255])) params_get
  = Raise UnicodeDecodeError.
Proof. vm_compute. reflexivity. Qed.

(** A connected fetch whose response body is not valid UTF-8 raises in
    [_request], whatever the status and before [_parse_JSON]. *)
Lemma fetch_non_utf8_raises json_loads w parameters u n der r calls :
  parse_resource parameters = Ret (Some u, Some n, None) ->
  w_connect w = Connects -> w_peercert w = Some der ->
  request_calls parameters = Ret calls ->
  w_http w = Responds r ->
  decode_utf8 (resp_body r) = None ->
  fetch json_loads w parameters = Raise UnicodeDecodeError.
Proof.
  intros P C D Rc Hw Hd.
  unfold fetch. rewrite P. cbn [bind].
  unfold connect. rewrite C.
  unfold get_peer_certificate. rewrite D. cbn [bind].
  unfold request. rewrite Rc. cbn [bind]. rewrite Hw, Hd. reflexivity.
Qed.

(** Claim C4 (amended). For a connected fetch whose response has status
    >= 400: when the body is valid UTF-8, [fetch] returns the failure shape
    with the response details as [fetchError], without consulting
    [json.loads] (the result does not depend on it), and [fetchedRaw] is the
    decoded body, which encodes back to exactly the bytes read; when the
    body is not valid UTF-8, the call raises [UnicodeDecodeError]. *)
Theorem fetch_error_status_reports_raw_body json_loads w parameters u n der r calls :
  parse_resource parameters = Ret (Some u, Some n, None) ->
  w_connect w = Connects -> w_peercert w = Some der ->
  request_calls parameters = Ret calls ->
  w_http w = Responds r -> 400 <= resp_status r ->
  (forall raw, decode_utf8 (resp_body r) = Some raw ->
    fetch json_loads w parameters
      = Ret (return_ {| peerCertEncoded := JStr (b64encode der);
                        peerCertLength := JInt (Z.of_nat (List.length der));
                        fetchedRaw := JStr raw |} None JNull (details_of r))
    /\ failure_shape (return_ {| peerCertEncoded := JStr (b64encode der);
                        peerCertLength := JInt (Z.of_nat (List.length der));
                        fetchedRaw := JStr raw |} None JNull (details_of r))
    /\ field (return_ {| peerCertEncoded := JStr (b64encode der);
                        peerCertLength := JInt (Z.of_nat (List.length der));
                        fetchedRaw := JStr raw |} None JNull (details_of r))
         (s "fetchError") = Some (JObj (details_of r))
    /\ field (return_ {| peerCertEncoded := JStr (b64encode der);
                        peerCertLength := JInt (Z.of_nat (List.length der));
                        fetchedRaw := JStr raw |} None JNull (details_of r))
         (s "fetchedRaw") = Some (JStr raw)
    /\ encode_utf8 raw = Some (resp_body r))
  /\ (decode_utf8 (resp_body r) = None ->
      fetch json_loads w parameters = Raise UnicodeDecodeError).
Proof.
  intros P C D Rc Hw Hs. split.
  - intros raw Hd. split; [|split; [|split; [|split]]].
    + unfold fetch. rewrite P. cbn [bind].
      unfold connect. rewrite C.
      unfold get_peer_certificate. rewrite D. cbn [bind].
      unfold request. rewrite Rc. cbn [bind]. rewrite Hw, Hd. cbn [bind].
      replace (400 <=? resp_status r) with true by (symmetry; apply Z.leb_le; exact Hs).
      reflexivity.
    + apply return_null_failure_shape.
    + apply return_null_failure.
    + apply field_return_raw.
    + apply decode_encode_utf8. exact Hd.
  - apply (fetch_non_utf8_raises json_loads w parameters u n der r calls); assumption.
Qed.

Lemma fetch_error_status_reports_raw_body_witness :
  (fetch loads_example (world_with (response_with 404 (s "not found"))) params_get
    = Ret (return_ {| peerCertEncoded := JStr (b64encode cert_der);
                      peerCertLength := JInt (Z.of_nat (List.length cert_der));
                      fetchedRaw := JStr (s "not found") |} None JNull
             (details_of (response_with 404 (s "not found"))))
   /\ encode_utf8 (s "not found") = Some (resp_body (response_with 404 (s "not found"))))
  /\ fetch loads_example (world_with (response_with 500 [72; 192; 33])) params_get
     = Raise UnicodeDecodeError.
Proof.
  split.
  - destruct (fetch_error_status_reports_raw_body loads_example
                (world_with (response_with 404 (s "not found"))) params_get
                (url_of (s "https://example.test/get")) 443 cert_der
                (response_with 404 (s "not found")) (calls_of params_get))
      as [Hok _]; [first [vm_compute; reflexivity | cbn; lia] .. | ].
    destruct (Hok (s "not found")) as (H1 & _ & _ & _ & H5); [vm_compute; reflexivity|].
    split; [exact H1 | exact H5].
  - destruct (fetch_error_status_reports_raw_body loads_example
                (world_with (response_with 500 [72; 192; 33])) params_get
                (url_of (s "https://example.test/get")) 443 cert_der
                (response_with 500 [72; 192; 33]) (calls_of params_get))
      as [_ Hbad]; [first [vm_compute; reflexivity | cbn; lia] .. | ].
    apply Hbad. vm_compute. reflexivity.
Defined.

(** ** Responses with status < 400 *)

Lemma parse_resource_port p u n :
  parse_resource p = Ret (Some u, Some n, None) ->
  exists po, port u = Ret po /\ n = match po with None => 443 | Some m => m end.
Proof.
  unfold parse_resource.
  destruct (subscript p (s "resource")) as [resource|e].
  - destruct (urlparse_value resource) as [u'|e]; cbn [bind]; [|discriminate].
    destruct (hostname u'); [|discriminate].
    destruct (port u') as [po|e] eqn:Hp; cbn [bind]; [|discriminate].
    intros [= -> <-]. eauto.
  - destruct e; discriminate.
Qed.

Lemma openssl_thumbprint_completes w a b :
  cross_check_completes w -> openssl_thumbprint w a b = Ret tt.
Proof.
  intros (out & pem & Hs & Hp & Hx). unfold openssl_thumbprint.
  rewrite Hs. cbn [bind]. rewrite Hp. exact Hx.
Qed.

(** The path of a connected fetch whose body parses without error. *)
Lemma fetch_parsed_path json_loads w parameters u n der r raw calls obj :
  parse_resource parameters = Ret (Some u, Some n, None) ->
  w_connect w = Connects -> w_peercert w = Some der ->
  request_calls parameters = Ret calls ->
  w_http w = Responds r -> resp_status r < 400 ->
  decode_utf8 (resp_body r) = Some raw ->
  parse_JSON json_loads raw = Ret (obj, None) ->
  cross_check_completes w ->
  fetch json_loads w parameters
    = Ret (return_ {| peerCertEncoded := JStr (b64encode der);
                      peerCertLength := JInt (Z.of_nat (List.length der));
                      fetchedRaw := JStr raw |} None obj (details_of r)).
Proof.
  intros P C D Rc Hw Hs Hd Hj Hx.
  destruct (parse_resource_port _ _ _ P) as (po & Hpo & Hn).
  unfold fetch. rewrite P. cbn [bind].
  unfold connect. rewrite C.
  unfold get_peer_certificate. rewrite D. cbn [bind].
  unfold request. rewrite Rc. cbn [bind]. rewrite Hw, Hd. cbn [bind].
  replace (400 <=? resp_status r) with false by (symmetry; apply Z.leb_gt; exact Hs).
  rewrite Hj. cbn [bind]. rewrite Hpo. cbn [bind].
  rewrite openssl_thumbprint_completes by exact Hx. reflexivity.
Qed.

(** Same as before the parse, for a body the parser rejects. *)
Lemma fetch_malformed_path json_loads w parameters u n der r raw calls fe :
  parse_resource parameters = Ret (Some u, Some n, None) ->
  w_connect w = Connects -> w_peercert w = Some der ->
  request_calls parameters = Ret calls ->
  w_http w = Responds r -> resp_status r < 400 ->
  decode_utf8 (resp_body r) = Some raw ->
  parse_JSON json_loads raw = Ret (JNull, Some fe) ->
  fetch json_loads w parameters
    = Ret (return_ {| peerCertEncoded := JStr (b64encode der);
                      peerCertLength := JInt (Z.of_nat (List.length der));
                      fetchedRaw := JStr raw |} (Some 2) JNull fe).
Proof.
  intros P C D Rc Hw Hs Hd Hj.
  unfold fetch. rewrite P. cbn [bind].
  unfold connect. rewrite C.
  unfold get_peer_certificate. rewrite D. cbn [bind].
  unfold request. rewrite Rc. cbn [bind]. rewrite Hw, Hd. cbn [bind].
  replace (400 <=? resp_status r) with false by (symmetry; apply Z.leb_gt; exact Hs).
  rewrite Hj. reflexivity.
Qed.

(** Claim C6 (counterexample). A 200 response whose body is the byte 0xFF,
    which is not structured data: [fetch] raises [UnicodeDecodeError]
    instead of returning a failure envelope. *)
Lemma fetch_200_non_utf8_body_raises :
  fetch loads_example (world_with (response_with 200 [255])) params_get
  = Raise UnicodeDecodeError.
Proof. vm_compute. reflexivity. Qed.

(** Claim C6 (amended). For a connected fetch with status < 400: when the
    body is non-empty valid UTF-8 that [json.loads] rejects with a
    [JSONDecodeError], [fetch] returns the failure shape whose [fetchError]
    carries the decoder's message, line and column, with status 2, and the
    certificate fields and the raw body are kept; when the body is not valid
    UTF-8, the call raises [UnicodeDecodeError] before any parsing. *)
Theorem fetch_malformed_body_reports_decode_error
    json_loads w parameters u n der r calls :
  parse_resource parameters = Ret (Some u, Some n, None) ->
  w_connect w = Connects -> w_peercert w = Some der ->
  request_calls parameters = Ret calls ->
  w_http w = Responds r -> resp_status r < 400 ->
  (forall raw e, decode_utf8 (resp_body r) = Some raw -> raw <> [] ->
    json_loads raw = Malformed e ->
    exists result, fetch json_loads w parameters = Ret result
      /\ failure_shape result
      /\ field result (s "fetchError") = Some (JObj (decode_error_details e))
      /\ field result (s "peerCertificateDER") = Some (JStr (b64encode der))
      /\ field result (s "peerCertificateLength")
         = Some (JInt (Z.of_nat (List.length der)))
      /\ field result (s "fetchedRaw") = Some (JStr raw))
  /\ (decode_utf8 (resp_body r) = None ->
      fetch json_loads w parameters = Raise UnicodeDecodeError).
Proof.
  intros P C D Rc Hw Hs. split.
  - intros raw e Hd Hne Hl.
    eexists. split.
    + apply (fetch_malformed_path json_loads w parameters u n der r raw calls); auto.
      unfold parse_JSON. destruct raw as [|c raw']; [congruence|]. rewrite Hl. reflexivity.
    + split; [apply return_null_failure_shape|].
      split; [reflexivity|].
      split; [apply field_return_DER|].
      split; [apply field_return_length | apply field_return_raw].
  - apply (fetch_non_utf8_raises json_loads w parameters u n der r calls); assumption.
Qed.

Lemma fetch_malformed_body_reports_decode_error_witness :
  (exists result,
    fetch loads_example (world_with (response_with 200 (s "oops"))) params_get = Ret result
    /\ failure_shape result
    /\ field result (s "fetchError")
       = Some (JObj (decode_error_details
            {| de_msg := s "Expecting value"; de_lineno := 1; de_colno := 1 |}))
    /\ field result (s "peerCertificateDER") = Some (JStr (b64encode cert_der))
    /\ field result (s "peerCertificateLength")
       = Some (JInt (Z.of_nat (List.length cert_der)))
    /\ field result (s "fetchedRaw") = Some (JStr (s "oops")))
  /\ fetch loads_example (world_with (response_with 200 [123; 237; 160; 128; 125])) params_get
     = Raise UnicodeDecodeError.
Proof.
  split.
  - destruct (fetch_malformed_body_reports_decode_error loads_example
                (world_with (response_with 200 (s "oops"))) params_get
                (url_of (s "https://example.test/get")) 443 cert_der
                (response_with 200 (s "oops")) (calls_of params_get))
      as [Hok _]; [first [vm_compute; reflexivity | cbn; lia] .. | ].
    apply Hok; first [vm_compute; reflexivity | discriminate].
  - destruct (fetch_malformed_body_reports_decode_error loads_example
                (world_with (response_with 200 [123; 237; 160; 128; 125])) params_get
                (url_of (s "https://example.test/get")) 443 cert_der
                (response_with 200 [123; 237; 160; 128; 125]) (calls_of params_get))
      as [_ Hbad]; [first [vm_compute; reflexivity | cbn; lia] .. | ].
    apply Hbad. vm_compute. reflexivity.
Defined.

(** Claim C7 (counterexample). A 200 response with an empty body: the
    result is the success shape, but [fetched] is the empty string, not
    null, because [_parse_JSON] passes the empty text through. *)
Lemma fetch_empty_body_fetched_empty_string :
  fetch loads_example (world_with (response_with 200 [])) params_get
    = Ret (return_ (captured_with []) None (JStr [])
             (details_of (response_with 200 [])))
  /\ field (return_ (captured_with []) None (JStr [])
             (details_of (response_with 200 []))) (s "fetched") = Some (JStr [])
  /\ field (return_ (captured_with []) None (JStr [])
             (details_of (response_with 200 []))) (s "fetched") <> Some JNull.
Proof.
  split; [vm_compute; reflexivity|]. split; [reflexivity | discriminate].
Qed.

(** Claim C7 (amended). For a connected fetch with status < 400 and an
    empty body, when the [openssl] cross-check runs to its end, [fetch]
    returns the success shape with [fetched] the empty string and the
    response details as [fetchedDetails]; no parse error is produced. *)
Theorem fetch_empty_body_success json_loads w parameters u n der r calls :
  parse_resource parameters = Ret (Some u, Some n, None) ->
  w_connect w = Connects -> w_peercert w = Some der ->
  request_calls parameters = Ret calls ->
  w_http w = Responds r -> resp_status r < 400 -> resp_body r = [] ->
  cross_check_completes w ->
  exists result, fetch json_loads w parameters = Ret result
    /\ success_shape result
    /\ field result (s "fetched") = Some (JStr [])
    /\ field result (s "fetchedDetails") = Some (JObj (details_of r))
    /\ field result (s "fetchError") = None.
Proof.
  intros P C D Rc Hw Hs Hb Hx.
  eexists. split.
  - apply (fetch_parsed_path json_loads w parameters u n der r [] calls (JStr []));
      try assumption; [rewrite Hb; reflexivity | reflexivity].
  - destruct (return_value_success
                {| peerCertEncoded := JStr (b64encode der);
                   peerCertLength := JInt (Z.of_nat (List.length der));
                   fetchedRaw := JStr [] |} None (JStr []) (details_of r))
      as (H1 & H2 & H3); [discriminate|].
    split; [split; [eauto | exact H3] |]. auto.
Qed.

Lemma fetch_empty_body_success_witness :
  exists result,
    fetch loads_example (world_with (response_with 204 [])) params_get = Ret result
    /\ success_shape result
    /\ field result (s "fetched") = Some (JStr [])
    /\ field result (s "fetchedDetails") = Some (JObj (details_of (response_with 204 [])))
    /\ field result (s "fetchError") = None.
Proof.
  apply (fetch_empty_body_success loads_example
           (world_with (response_with 204 [])) params_get
           (url_of (s "https://example.test/get")) 443 cert_der
           (response_with 204 []) (calls_of params_get));
    first [vm_compute; reflexivity | cbn; lia | idtac].
  exists s_client_output, (skipn 1 (splitlines_keepends s_client_output)).
  split; [reflexivity | split; [vm_compute; reflexivity | reflexivity]].
Defined.





(** ** Further properties of the module *)

Lemma str_eqb_spec a b : str_eqb a b = true <-> a = b.
Proof.
  revert b; induction a as [|x a IH]; intros [|y b]; simpl;
    try (split; congruence).
  rewrite andb_true_iff, Z.eqb_eq, IH.
  split; [intros [-> ->]; reflexivity | intros H; injection H; auto].
Qed.

Lemma str_eqb_refl a : str_eqb a a = true.
Proof. apply str_eqb_spec. reflexivity. Qed.

Lemma str_eqb_sym a b : str_eqb a b = str_eqb b a.
Proof.
  destruct (str_eqb a b) eqn:E, (str_eqb b a) eqn:F; auto.
  - apply str_eqb_spec in E. subst. rewrite str_eqb_refl in F. discriminate.
  - apply str_eqb_spec in F. subst. rewrite str_eqb_refl in E. discriminate.
Qed.

Lemma dict_get_set d k v k' :
  dict_get (dict_set d k v) k' = if str_eqb k' k then Some v else dict_get d k'.
Proof.
  induction d as [|[k0 v0] d IH]; simpl.
  - destruct (str_eqb k' k); reflexivity.
  - destruct (str_eqb k k0) eqn:E; simpl.
    + apply str_eqb_spec in E. subst k0.
      destruct (str_eqb k' k); reflexivity.
    + rewrite IH. destruct (str_eqb k' k0) eqn:F, (str_eqb k' k) eqn:G; auto.
      apply str_eqb_spec in F, G. subst. rewrite str_eqb_refl in E. discriminate.
Qed.

Lemma dict_get_in d k v : dict_get d k = Some v -> In k (dict_keys d).
Proof.
  induction d as [|[k0 v0] d IH]; simpl; [discriminate|].
  destruct (str_eqb k k0) eqn:E; [apply str_eqb_spec in E; auto|auto].
Qed.

Lemma dict_get_keys d k : In k (dict_keys d) -> exists v, dict_get d k = Some v.
Proof.
  induction d as [|[k0 v0] d IH]; simpl; [intros []|].
  destruct (str_eqb k k0) eqn:E; [eauto|].
  intros [<- | H]; [rewrite str_eqb_refl in E; discriminate | auto].
Qed.

Lemma dict_keys_set d k v :
  dict_keys (dict_set d k v)
    = if dict_has d k then dict_keys d else dict_keys d ++ [k].
Proof.
  unfold dict_has. induction d as [|[k0 v0] d IH]; simpl; [reflexivity|].
  destruct (str_eqb k k0); simpl; [reflexivity|].
  rewrite IH. destruct (dict_get d k); reflexivity.
Qed.

Lemma dict_set_nodup d k v : NoDup (dict_keys d) -> NoDup (dict_keys (dict_set d k v)).
Proof.
  intros H. rewrite dict_keys_set. unfold dict_has.
  destruct (dict_get d k) eqn:E; [exact H|].
  apply NoDup_app; [exact H | constructor; [intros []|constructor] |].
  intros x Hx [<- | []]. apply dict_get_keys in Hx. destruct Hx as [v' Hv].
  congruence.
Qed.

Lemma last_header_acc hs k acc :
  fold_left (fun acc hv => if str_eqb k (fst hv) then Some (snd hv) else acc) hs acc
  = match last_header hs k with Some v => Some v | None => acc end.
Proof.
  unfold last_header. revert acc.
  induction hs as [|[h v] hs IH]; intros acc; simpl; [reflexivity|].
  rewrite IH, (IH (if str_eqb k h then Some v else None)).
  destruct (fold_left _ hs None); [reflexivity|].
  destruct (str_eqb k h); reflexivity.
Qed.

Lemma fold_headers_get hs d k :
  dict_get (fold_left (fun d hv => dict_set d (fst hv) (JStr (snd hv))) hs d) k
  = match last_header hs k with Some v => Some (JStr v) | None => dict_get d k end.
Proof.
  revert d. induction hs as [|[h v] hs IH]; intros d; simpl; [reflexivity|].
  rewrite IH. clear IH. unfold last_header at 2. simpl. rewrite last_header_acc.
  destruct (last_header hs k); [reflexivity|].
  rewrite dict_get_set. destruct (str_eqb k h); reflexivity.
Qed.

Lemma fold_headers_nodup hs d :
  NoDup (dict_keys d) ->
  NoDup (dict_keys (fold_left (fun d hv => dict_set d (fst hv) (JStr (snd hv))) hs d)).
Proof.
  revert d. induction hs as [|hv hs IH]; intros d H; simpl; [exact H|].
  apply IH. apply dict_set_nodup. exact H.
Qed.

(** The [headers] dict of a response's [details], built by
    [dict(response.getheaders())], has each header name once, mapped to
    the value of the last header of that name the server sent. *)
Theorem details_of_headers_last r k :
  exists hs, dict_get (details_of r) (s "headers") = Some (JObj hs)
    /\ dict_get hs k = option_map JStr (last_header (resp_headers r) k)
    /\ NoDup (dict_keys hs).
Proof.
  eexists. split; [reflexivity|]. split.
  - rewrite fold_headers_get. destruct (last_header _ k); reflexivity.
  - apply fold_headers_nodup. constructor.
Qed.

(** [return_] with a status [n] and no fetched value: the [fetchError]
    dict maps [status] to [n], every other key as in [details], and has
    the keys of [details], [status] appended last when it was absent. *)
Theorem return_status_override c n d :
  exists d', field (return_ c (Some n) JNull d) (s "fetchError") = Some (JObj d')
    /\ dict_get d' (s "status") = Some (JInt n)
    /\ (forall k, k <> s "status" -> dict_get d' k = dict_get d k)
    /\ dict_keys d' = (if dict_has d (s "status") then dict_keys d
                       else dict_keys d ++ [s "status"]).
Proof.
  eexists. split; [reflexivity|]. split; [|split].
  - rewrite dict_get_set, str_eqb_refl. reflexivity.
  - intros k Hk. rewrite dict_get_set.
    destruct (str_eqb k (s "status")) eqn:E; [|reflexivity].
    apply str_eqb_spec in E. contradiction.
  - apply dict_keys_set.
Qed.

Lemma return_status_override_witness :
  exists d', field (return_ nothing_captured (Some 0) JNull [(s "status", JInt 5); (s "x", JNull)])
               (s "fetchError") = Some (JObj d')
    /\ dict_get d' (s "status") = Some (JInt 0)
    /\ (forall k, k <> s "status" ->
          dict_get d' k = dict_get [(s "status", JInt 5); (s "x", JNull)] k)
    /\ dict_keys d' = (if dict_has [(s "status", JInt 5); (s "x", JNull)] (s "status")
                       then dict_keys [(s "status", JInt 5); (s "x", JNull)]
                       else dict_keys [(s "status", JInt 5); (s "x", JNull)] ++ [s "status"]).
Proof. apply return_status_override. Defined.

(** Case analysis on a [Z] literal pattern: every other value falls
    through to the generic branch. *)
Ltac z_literal_cases x :=
  let p := fresh "p" in
  destruct x as [|p|p]; try reflexivity;
  repeat (destruct p as [p|p|]; try reflexivity).

Lemma splitlines_aux_cons c t cur :
  splitlines_aux (c :: t) cur =
    if (c =? 13) && match t with d :: _ => d =? 10 | [] => false end
    then rev (10 :: 13 :: cur) :: splitlines_aux (tl t) []
    else if is_line_boundary c then rev (c :: cur) :: splitlines_aux t []
    else splitlines_aux t (c :: cur).
Proof.
  z_literal_cases c. destruct t as [|d t]; [reflexivity|]. z_literal_cases d.
Qed.

Lemma readlines_aux_cons c t cur :
  readlines_aux (c :: t) cur =
    if (c =? 13) && match t with d :: _ => d =? 10 | [] => false end
    then rev (10 :: cur) :: readlines_aux (tl t) []
    else if (c =? 10) || (c =? 13) then rev (10 :: cur) :: readlines_aux t []
    else readlines_aux t (c :: cur).
Proof.
  z_literal_cases c. destruct t as [|d t]; [reflexivity|]. z_literal_cases d.
Qed.

Lemma concat_splitlines_aux t cur :
  concat_str (splitlines_aux t cur) = rev cur ++ t.
Proof.
  remember (List.length t) as n eqn:Hn.
  revert t cur Hn. induction n as [n IH] using lt_wf_ind. intros t cur Hn.
  destruct t as [|c t].
  - destruct cur; simpl; [reflexivity|]. rewrite !app_nil_r. reflexivity.
  - rewrite splitlines_aux_cons.
    destruct ((c =? 13) && match t with d :: _ => d =? 10 | [] => false end) eqn:E.
    + apply andb_true_iff in E. destruct E as [E1 E2]. apply Z.eqb_eq in E1. subst c.
      destruct t as [|d t]; [discriminate|]. apply Z.eqb_eq in E2. subst d.
      simpl concat_str. rewrite (IH (List.length t)) by (simpl in Hn; lia).
      simpl. rewrite <- !app_assoc. reflexivity.
    + destruct (is_line_boundary c); simpl concat_str.
      * rewrite (IH (List.length t)) by (simpl in Hn; lia).
        simpl. rewrite <- app_assoc. reflexivity.
      * rewrite (IH (List.length t)) by (simpl in Hn; lia).
        simpl. rewrite <- app_assoc. reflexivity.
Qed.

(** [str.splitlines(True)] keeps the line ends: joining the lines that
    [openssl_thumbprint] scans gives back the [s_client] output. *)
Theorem splitlines_keepends_concat t : concat_str (splitlines_keepends t) = t.
Proof. unfold splitlines_keepends. rewrite concat_splitlines_aux. reflexivity. Qed.

Lemma readlines_aux_app a b cur :
  a <> [] -> last a 0 = 10 ->
  readlines_aux (a ++ b) cur = readlines_aux a cur ++ readlines_aux b [].
Proof.
  remember (List.length a) as n eqn:Hn.
  revert a cur Hn. induction n as [n IH] using lt_wf_ind. intros a cur Hn Ha Hl.
  destruct a as [|c a]; [contradiction|].
  destruct a as [|d a].
  - simpl in Hl. subst c. reflexivity.
  - cbn [app]. rewrite (readlines_aux_cons c (d :: a ++ b)), (readlines_aux_cons c (d :: a)).
    cbn [tl].
    destruct ((c =? 13) && (d =? 10)) eqn:E.
    + destruct a as [|e a].
      * reflexivity.
      * change (e :: a ++ b) with ((e :: a) ++ b). rewrite (IH (List.length (e :: a))).
        -- reflexivity.
        -- simpl in Hn |- *. lia.
        -- reflexivity.
        -- discriminate.
        -- exact Hl.
    + assert (Hd : d :: a <> []) by discriminate.
      change (d :: a ++ b) with ((d :: a) ++ b).
      destruct ((c =? 10) || (c =? 13)).
      * rewrite (IH (List.length (d :: a))); [reflexivity | simpl in Hn |- *; lia
          | reflexivity | exact Hd | exact Hl].
      * rewrite (IH (List.length (d :: a))); [reflexivity | simpl in Hn |- *; lia
          | reflexivity | exact Hd | exact Hl].
Qed.

Lemma count_certificates_app a b :
  (a = [] \/ last a 0 = 10) ->
  count_certificates (a ++ b) = count_certificates a + count_certificates b.
Proof.
  intros H. unfold count_certificates, readlines.
  destruct H as [-> | H]; [reflexivity|].
  destruct a as [|c a]; [discriminate|].
  rewrite (readlines_aux_app (c :: a) b []) by (discriminate || exact H).
  rewrite filter_app, length_app. lia.
Qed.

(** [keychain_PEM] appends the two exports and counts the lines that begin
    a certificate: when the first export is empty or ends with a newline,
    the bundle is the two exports one after the other and the count is the
    sum of their counts. *)
Theorem keychain_PEM_count_sum security r1 r2 :
  security (nth 0 keychains []) = Ret r1 ->
  security (nth 1 keychains []) = Ret r2 ->
  (stdout r1 = [] \/ last (stdout r1) 0 = 10) ->
  keychain_PEM security
    = Ret (stdout r1 ++ stdout r2,
           count_certificates (stdout r1) + count_certificates (stdout r2)).
Proof.
  intros H1 H2 H. unfold keychain_PEM, keychains. simpl in H1, H2.
  cbn [append_exports]. rewrite H1. cbn [bind]. rewrite H2. cbn [bind app].
  rewrite count_certificates_app by exact H. reflexivity.
Qed.

Lemma keychain_PEM_count_sum_witness :
  keychain_PEM (fun _ => Ret {| returncode := 0; stdout := s_client_output |})
    = Ret (s_client_output ++ s_client_output, 1 + 1).
Proof.
  change (1 + 1) with (count_certificates s_client_output
                       + count_certificates s_client_output).
  apply (keychain_PEM_count_sum _ {| returncode := 0; stdout := s_client_output |}
                                  {| returncode := 0; stdout := s_client_output |});
    [reflexivity | reflexivity | right; reflexivity].
Defined.

Lemma pem_lines_none_skip pre l :
  Forall plain_line pre -> pem_lines None (pre ++ l) = pem_lines None l.
Proof.
  induction 1 as [|x pre [Hb He] _ IH]; [reflexivity|].
  simpl. rewrite Hb, He. exact IH.
Qed.

Lemma pem_lines_some_skip acc mid l :
  Forall plain_line mid -> pem_lines (Some acc) (mid ++ l) = pem_lines (Some (acc ++ mid)) l.
Proof.
  intros H. revert acc. induction H as [|x mid [Hb He] _ IH]; intros acc.
  - rewrite app_nil_r. reflexivity.
  - simpl. rewrite Hb, He, IH, <- app_assoc. reflexivity.
Qed.

(** The loop of [openssl_thumbprint] keeps the first certificate: when
    the [s_client] lines are some lines with no certificate marker, a line
    that begins a certificate, body lines with no marker, a line that ends
    it and anything after, the PEM collected is the begin line, the body
    and the end line. *)
Theorem pem_lines_first_certificate pre b mid e post :
  Forall plain_line pre ->
  is_begin_line b = true -> is_end_line b = false ->
  Forall plain_line mid ->
  is_begin_line e = false -> is_end_line e = true ->
  pem_lines None (pre ++ b :: mid ++ e :: post) = Some (b :: mid ++ [e]).
Proof.
  intros Hpre Hb Hb' Hmid He He'.
  rewrite pem_lines_none_skip by exact Hpre.
  simpl. rewrite Hb, Hb'. rewrite pem_lines_some_skip by exact Hmid.
  simpl. rewrite He, He'. reflexivity.
Qed.

Lemma pem_lines_first_certificate_witness :
  pem_lines None ([s "CONNECTED(00000003)"; s "depth=0"]
                  ++ s "-----BEGIN CERTIFICATE-----" :: [s "MIIB"; s "AAAA"]
                  ++ s "-----END CERTIFICATE-----" :: [s "-----BEGIN CERTIFICATE-----"])
  = Some (s "-----BEGIN CERTIFICATE-----" :: [s "MIIB"; s "AAAA"]
          ++ [s "-----END CERTIFICATE-----"]).
Proof.
  apply pem_lines_first_certificate;
    repeat constructor; vm_compute; reflexivity.
Defined.

Lemma pem_lines_no_begin lines :
  Forall (fun l => is_begin_line l = false) lines -> pem_lines None lines = None.
Proof.
  induction 1 as [|l lines Hb _ IH]; [reflexivity|].
  simpl. rewrite Hb. destruct (is_end_line l); [reflexivity | exact IH].
Qed.

(** When no line of the [s_client] output begins a certificate,
    [openssl_thumbprint] raises [TypeError] on [len(None)], before running
    [openssl x509]. *)
Theorem openssl_thumbprint_no_certificate w serverName connectAddress out :
  w_s_client w = Ret out ->
  Forall (fun l => is_begin_line l = false) (splitlines_keepends out) ->
  openssl_thumbprint w serverName connectAddress
    = Raise (TypeError (s "object of type 'NoneType' has no len()")).
Proof.
  intros Hs Hl. unfold openssl_thumbprint. rewrite Hs. cbn [bind].
  rewrite pem_lines_no_begin by exact Hl. reflexivity.
Qed.

Lemma openssl_thumbprint_no_certificate_witness :
  openssl_thumbprint
    {| w_connect := Connects; w_peercert := None; w_http := HttpRaises UnicodeDecodeError;
       w_s_client := Ret (s "connect:errno=61" ++ [10]); w_x509 := Ret tt |}
    (s "example.test") (s "example.test:443")
  = Raise (TypeError (s "object of type 'NoneType' has no len()")).
Proof.
  apply (openssl_thumbprint_no_certificate _ _ _ (s "connect:errno=61" ++ [10]));
    [reflexivity | repeat constructor].
Defined.

Lemma b64encode_length bs :
  List.length (b64encode bs) = (4 * ((List.length bs + 2) / 3))%nat.
Proof.
  remember (List.length bs) as n eqn:Hn.
  revert bs Hn. induction n as [n IH] using lt_wf_ind. intros bs Hn.
  destruct bs as [|a [|b [|c r]]]; simpl in Hn; subst n; [reflexivity..|].
  cbn [b64encode]. rewrite length_app, (IH (List.length r)) by (simpl; lia || reflexivity).
  cbn [List.length].
  replace (S (S (S (List.length r))) + 2)%nat with (List.length r + 2 + 1 * 3)%nat by lia.
  rewrite Nat.div_add by lia. lia.
Qed.

(** The [peerCertificateDER] text is 4 characters for every 3 bytes of the
    certificate, rounded up: [get_peer_certificate] pads the base64 text
    to a multiple of 4. *)
Theorem get_peer_certificate_length w enc len :
  get_peer_certificate w = Ret (enc, len) ->
  Z.of_nat (List.length enc) = 4 * ((len + 2) / 3).
Proof.
  intros H. apply get_peer_certificate_ret in H. destruct H as (der & _ & -> & ->).
  rewrite b64encode_length, Nat2Z.inj_mul, Nat2Z.inj_div, Nat2Z.inj_add. reflexivity.
Qed.

Lemma get_peer_certificate_length_witness :
  get_peer_certificate (world_with (response_with 200 [])) = Ret (b64encode cert_der, 4)
  /\ Z.of_nat (List.length (b64encode cert_der)) = 4 * ((4 + 2) / 3).
Proof.
  split; [reflexivity|].
  apply (get_peer_certificate_length (world_with (response_with 200 []))). reflexivity.
Defined.

Lemma b64_char_alphabet n : 0 <= n < 64 -> is_b64_char (b64_char n) = true.
Proof.
  intros H. replace n with (Z.of_nat (Z.to_nat n)) by lia.
  assert (Hk : (Z.to_nat n < 64)%nat) by lia.
  remember (Z.to_nat n) as k eqn:Ek. clear Ek H.
  do 64 (destruct k as [|k]; [reflexivity|]). lia.
Qed.

Lemma land_3 x : Z.land x 3 = x mod 4.
Proof. exact (Z.land_ones x 2 ltac:(lia)). Qed.

Ltac b64_index :=
  apply b64_char_alphabet;
  rewrite ?land_3, ?land_15, ?land_63;
  try (rewrite lor_shiftl_small
         by (lia || (bits_to_arith; Z.to_euclidean_division_equations; lia)));
  bits_to_arith; Z.to_euclidean_division_equations; lia.

Lemma b64encode_alphabet bs :
  Forall (fun b => 0 <= b < 256) bs -> Forall (fun c => is_b64_char c = true) (b64encode bs).
Proof.
  remember (List.length bs) as n eqn:Hn.
  revert bs Hn. induction n as [n IH] using lt_wf_ind. intros bs Hn H.
  destruct bs as [|a [|b [|c r]]].
  - constructor.
  - apply Forall_cons_iff in H as [Ha _].
    repeat constructor; [b64_index | b64_index].
  - apply Forall_cons_iff in H as [Ha H]. apply Forall_cons_iff in H as [Hb _].
    repeat constructor; [b64_index | b64_index | b64_index].
  - apply Forall_cons_iff in H as [Ha H]. apply Forall_cons_iff in H as [Hb H].
    apply Forall_cons_iff in H as [Hc H].
    cbn [b64encode]. apply Forall_app. split.
    + repeat constructor; [b64_index | b64_index | b64_index | b64_index].
    + apply (IH (List.length r)); [simpl in Hn; lia | reflexivity | exact H].
Qed.

(** When the peer certificate is a list of bytes, [peerCertificateDER] is
    made only of the characters of the base64 alphabet and its [=]
    padding. *)
Theorem get_peer_certificate_alphabet w der enc len :
  w_peercert w = Some der -> Forall (fun b => 0 <= b < 256) der ->
  get_peer_certificate w = Ret (enc, len) ->
  Forall (fun c => is_b64_char c = true) enc.
Proof.
  intros Hw Hb H. unfold get_peer_certificate in H. rewrite Hw in H.
  injection H as <- _. apply b64encode_alphabet. exact Hb.
Qed.

Lemma get_peer_certificate_alphabet_witness :
  Forall (fun c => is_b64_char c = true) (b64encode cert_der).
Proof.
  apply (get_peer_certificate_alphabet (world_with (response_with 200 [])) cert_der
           (b64encode cert_der) 4);
    [reflexivity | repeat constructor; lia | reflexivity].
Defined.

Lemma ascii_text_app a b : ascii_text a -> ascii_text b -> ascii_text (a ++ b).
Proof. intros. apply Forall_app. auto. Qed.

Lemma ascii_encode t : ascii_text t -> encode_utf8 t = Some t.
Proof.
  induction 1 as [|c t Hc _ IH]; [reflexivity|].
  apply (encode_cons c [c] t t); [apply utf8_char_1; lia | exact IH].
Qed.

Lemma hex_digit_ascii n : 0 <= n < 16 -> 0 <= hex_digit n < 128.
Proof. unfold hex_digit. destruct (Z.ltb_spec n 10); lia. Qed.

Lemma u_escape_ascii n : ascii_text (u_escape n).
Proof.
  unfold u_escape, hex4.
  repeat constructor; try lia; apply hex_digit_ascii; apply Z.mod_pos_bound; lia.
Qed.

Lemma dumps_char_ascii c : ascii_text (dumps_char c).
Proof.
  unfold dumps_char.
  repeat match goal with
  | |- ascii_text (if ?b then _ else _) => destruct b eqn:?
  end;
  first [ apply u_escape_ascii
        | apply ascii_text_app; apply u_escape_ascii
        | repeat constructor; lia
        | match goal with H : (32 <=? c) && (c <=? 126) = true |- _ =>
            apply andb_true_iff in H; rewrite !Z.leb_le in H;
            repeat constructor; lia end ].
Qed.

Lemma concat_ascii l : Forall ascii_text l -> ascii_text (concat_str l).
Proof. induction 1; [constructor | apply ascii_text_app; auto]. Qed.

Lemma join_ascii sep l : ascii_text sep -> Forall ascii_text l -> ascii_text (join sep l).
Proof.
  intros Hs. induction 1 as [|x l Hx Hl IH]; [constructor|].
  destruct l as [|y l]; [exact Hx|].
  change (ascii_text (x ++ sep ++ join sep (y :: l))).
  repeat apply ascii_text_app; auto.
Qed.

Lemma dumps_str_ascii t : ascii_text (dumps_str t).
Proof.
  unfold dumps_str. repeat apply ascii_text_app; try (repeat constructor; lia).
  apply concat_ascii. apply Forall_map, Forall_forall. intros c _. apply dumps_char_ascii.
Qed.

Lemma digits_aux_ascii fuel n acc :
  0 <= n -> ascii_text acc -> ascii_text (digits_aux fuel n acc).
Proof.
  revert n acc. induction fuel as [|f IH]; intros n acc Hn Ha; simpl; [exact Ha|].
  assert (Hd : ascii_text ((48 + n mod 10) :: acc))
    by (constructor; [pose proof (Z.mod_pos_bound n 10); lia | exact Ha]).
  destruct (n <? 10); [exact Hd|].
  apply IH; [apply Z.div_pos; lia | exact Hd].
Qed.

Lemma z_to_str_ascii n : ascii_text (z_to_str n).
Proof.
  unfold z_to_str.
  assert (H : ascii_text (digits_aux (S (Z.to_nat (Z.log2_up (Z.abs n + 1)))) (Z.abs n) []))
    by (apply digits_aux_ascii; [lia | constructor]).
  destruct (n <? 0); [constructor; [lia | exact H] | exact H].
Qed.

Lemma json_dumps_ascii v : floats_ascii v = true -> ascii_text (json_dumps v).
Proof.
  revert v. fix IH 1. intros v.
  destruct v as [| [] | z | r | t | l | kv]; cbn [floats_ascii json_dumps]; intros H.
  - repeat constructor; lia.
  - repeat constructor; lia.
  - repeat constructor; lia.
  - apply z_to_str_ascii.
  - unfold float_dumps.
    destruct (str_eqb r (s "nan")); [repeat constructor; lia|].
    destruct (str_eqb r (s "inf")); [repeat constructor; lia|].
    destruct (str_eqb r (s "-inf")); [repeat constructor; lia|].
    apply Forall_forall. intros c Hc. apply forallb_forall with (x := c) in H; [|exact Hc].
    apply andb_true_iff in H. rewrite Z.leb_le, Z.ltb_lt in H. exact H.
  - apply dumps_str_ascii.
  - repeat apply ascii_text_app; try (repeat constructor; lia).
    apply join_ascii; [repeat constructor; lia|].
    induction l as [|x l IHl]; cbn [map]; [constructor|].
    cbn [forallb] in H. apply andb_true_iff in H. destruct H as [Hx Hl].
    constructor; [apply IH; exact Hx | apply IHl; exact Hl].
  - repeat apply ascii_text_app; try (repeat constructor; lia).
    apply join_ascii; [repeat constructor; lia|].
    induction kv as [|[k x] kv IHkv]; cbn [map]; [constructor|].
    cbn [forallb] in H. apply andb_true_iff in H. destruct H as [Hx Hkv].
    constructor; [|apply IHkv; exact Hkv].
    cbn [fst snd]. apply ascii_text_app; [apply dumps_str_ascii|].
    apply ascii_text_app; [repeat constructor; lia | apply IH; exact Hx].
Qed.

(** [json.dumps(options['bodyObject']).encode()]: the text [json.dumps]
    writes is ASCII ([ensure_ascii]), so encoding never raises and the
    body bytes are the characters of the JSON text. *)
Theorem body_object_encoding o :
  floats_ascii o = true -> py_encode (JStr (json_dumps o)) = Ret (json_dumps o).
Proof.
  intros H. unfold py_encode. rewrite ascii_encode by (apply json_dumps_ascii; exact H).
  reflexivity.
Qed.

Lemma body_object_encoding_witness :
  py_encode (JStr (json_dumps (JObj [(s "k", JStr [233; 128512]); (s "x", JFloat (s "1.5"))])))
  = Ret (json_dumps (JObj [(s "k", JStr [233; 128512]); (s "x", JFloat (s "1.5"))])).
Proof. apply body_object_encoding. reflexivity. Defined.

Lemma some_eq {A} (a b : A) : Some a = Some b -> b = a.
Proof. congruence. Qed.

Ltac bit_side := bits_to_arith; first [reflexivity | lia | Z.to_euclidean_division_equations; lia].

Lemma decode_utf8_char c e rest :
  0 <= c <= 1114111 -> utf8_char c = Some e ->
  decode_utf8 (e ++ rest) = option_map (cons c) (decode_utf8 rest).
Proof.
  intros Hc. unfold utf8_char.
  destruct (Z.ltb_spec c 128).
  { intros [= <-]. cbn [app decode_utf8].
    rewrite (proj2 (Z.ltb_lt c 128)) by lia. reflexivity. }
  destruct (Z.ltb_spec c 2048).
  { intros He%some_eq; subst e.
    rewrite (lor_low 192 _ 5), (lor_low 128 _ 6) by bit_side.
    bits_to_arith. cbn [app decode_utf8]. unfold cont. decide_ifs.
    f_equal. f_equal.
    rewrite lor_shiftl_small by bit_side.
    bits_to_arith. Z.to_euclidean_division_equations; lia. }
  destruct (in_range 55296 57343 c) eqn:Es; [discriminate|].
  assert (Hs : c < 55296 \/ 57343 < c).
  { unfold in_range in Es. apply andb_false_iff in Es. rewrite !Z.leb_gt in Es. lia. }
  destruct (Z.ltb_spec c 65536).
  { intros He%some_eq; subst e.
    rewrite (lor_low 224 _ 4), !(lor_low 128 _ 6) by bit_side.
    bits_to_arith. cbn [app decode_utf8]. unfold cont.
    destruct (Z.eqb_spec (224 + c / 4096) 224); destruct (Z.eqb_spec (224 + c / 4096) 237);
      decide_ifs.
    all: f_equal; f_equal; rewrite ?land_15, ?land_63.
    all: rewrite (lor_shiftl_small ((128 + (c / 64) mod 64) mod 64)) by bit_side.
    all: rewrite lor_shiftl_small by bit_side.
    all: bits_to_arith; Z.to_euclidean_division_equations; lia. }
  intros He%some_eq; subst e.
  rewrite (lor_low 240 _ 3), !(lor_low 128 _ 6) by bit_side.
  bits_to_arith. cbn [app decode_utf8]. unfold cont.
  destruct (Z.eqb_spec (240 + c / 262144) 240); destruct (Z.eqb_spec (240 + c / 262144) 244);
    decide_ifs.
  all: f_equal; f_equal; rewrite ?land_7, ?land_63.
  all: rewrite (lor_shiftl_small ((128 + (c / 64) mod 64) mod 64)) by bit_side.
  all: rewrite (lor_shiftl_small ((128 + (c / 4096) mod 64) mod 64)) by bit_side.
  all: rewrite lor_shiftl_small by bit_side.
  all: bits_to_arith; Z.to_euclidean_division_equations; lia.
Qed.

(** A Python [str] holds code points in 0..0x10FFFF. Whenever
    [str.encode()] succeeds (no lone surrogate), strict UTF-8 decoding of
    the bytes gives the text back: the body [_request] sends for [body]
    reads back as the caller's text. *)
Theorem utf8_encode_decode t bs :
  Forall (fun c => 0 <= c <= 1114111) t ->
  encode_utf8 t = Some bs -> decode_utf8 bs = Some t.
Proof.
  intros Ht. revert bs. induction Ht as [|c t Hc _ IH]; intros bs H.
  - injection H as <-. reflexivity.
  - simpl in H. destruct (utf8_char c) as [e|] eqn:Ec; [|discriminate].
    destruct (encode_utf8 t) as [r|]; [|discriminate].
    injection H as <-. rewrite (decode_utf8_char c e r Hc Ec), (IH r eq_refl).
    reflexivity.
Qed.

Lemma utf8_encode_decode_witness :
  decode_utf8 [104; 195; 169; 226; 130; 172; 240; 159; 152; 128]
  = Some [104; 233; 8364; 128512].
Proof.
  apply utf8_encode_decode; [repeat constructor; lia | vm_compute; reflexivity].
Defined.

(** A call without [options] is a plain [GET] of the resource: the request
    line, no header of the caller or [Content-Type], and no body. *)
Theorem request_calls_without_options d r :
  dict_get d (s "options") = None -> dict_get d (s "resource") = Some (JStr r) ->
  request_calls (JObj d) = Ret [PutRequest (s "GET") r; EndHeaders None; Send []].
Proof.
  intros Ho Hr. unfold request_calls, get_options. cbn [subscript]. rewrite Ho, Hr.
  reflexivity.
Qed.

Lemma request_calls_without_options_witness :
  request_calls params_get
    = Ret [PutRequest (s "GET") (s "https://example.test/get"); EndHeaders None; Send []].
Proof. apply request_calls_without_options; reflexivity. Defined.

Lemma parse_resource_host d t u h po :
  dict_get d (s "resource") = Some (JStr t) -> urlparse t = Ret u ->
  hostname u = Some h -> port u = Ret po ->
  parse_resource (JObj d)
    = Ret (Some u, Some (match po with None => 443 | Some n => n end), None).
Proof.
  intros Hd Hu Hh Hp. unfold parse_resource. cbn [subscript]. rewrite Hd.
  cbn [urlparse_value bind]. rewrite Hu. cbn [bind]. rewrite Hh, Hp. reflexivity.
Qed.

(** A resource URL with a host and no port is fetched on port 443. *)
Theorem parse_resource_default_port d t u h :
  dict_get d (s "resource") = Some (JStr t) -> urlparse t = Ret u ->
  hostname u = Some h -> snd (hostinfo u) = None ->
  parse_resource (JObj d) = Ret (Some u, Some 443, None).
Proof.
  intros Hd Hu Hh Hp. apply (parse_resource_host d t u h None Hd Hu Hh).
  unfold port. rewrite Hp. reflexivity.
Qed.

Lemma parse_resource_default_port_witness :
  parse_resource params_get = Ret (Some (url_of (s "https://example.test/get")), Some 443, None).
Proof.
  apply (parse_resource_default_port _ (s "https://example.test/get") _ (s "example.test"));
    vm_compute; reflexivity.
Defined.

(** A port that is not made of digits, or is above 65535, makes [fetch]
    raise [ValueError] from [url.port] in [_parse_resource], before any
    connection. *)
Theorem fetch_invalid_port_raises json_loads w d t u h p :
  dict_get d (s "resource") = Some (JStr t) -> urlparse t = Ret u ->
  hostname u = Some h -> snd (hostinfo u) = Some p ->
  forallb is_ascii_digit p = false \/ 65535 < str_to_z p ->
  exists msg, fetch json_loads w (JObj d) = Raise (ValueError msg).
Proof.
  intros Hd Hu Hh Hp Hbad. unfold fetch, parse_resource. cbn [subscript]. rewrite Hd.
  cbn [urlparse_value bind]. rewrite Hu. cbn [bind]. rewrite Hh. unfold port. rewrite Hp.
  destruct (forallb is_ascii_digit p) eqn:Hdig.
  - destruct Hbad as [Hbad|Hbad]; [discriminate|].
    replace ((0 <=? str_to_z p) && (str_to_z p <=? 65535)) with false
      by (symmetry; apply andb_false_iff; right; apply Z.leb_gt; exact Hbad).
    eexists. reflexivity.
  - eexists. reflexivity.
Qed.

Lemma fetch_invalid_port_raises_witness :
  exists msg, fetch loads_example (world_with (response_with 200 (s "{}")))
                (JObj [(s "resource", JStr (s "https://example.test:99999/get"))])
              = Raise (ValueError msg).
Proof.
  apply (fetch_invalid_port_raises _ _ _ (s "https://example.test:99999/get")
           (url_of (s "https://example.test:99999/get")) (s "example.test") (s "99999"));
    try (vm_compute; reflexivity).
  right. vm_compute. reflexivity.
Defined.

(** When the connection cannot be made, [fetch] returns the failure
    envelope: null certificate fields and raw body, and a [fetchError]
    naming [HTTPSConnection(host,port,)] with the error text, status 1. *)
Theorem fetch_connection_failure json_loads w d t u h po error where_ :
  dict_get d (s "resource") = Some (JStr t) -> urlparse t = Ret u ->
  hostname u = Some h -> port u = Ret po ->
  (w_connect w = CtorFails error /\ where_ = s " " ++ error)
  \/ (w_connect w = ConnectFails error /\ where_ = s ".connect() " ++ error) ->
  fetch json_loads w (JObj d)
    = Ret (JObj [(s "peerCertificateDER", JNull); (s "peerCertificateLength", JNull);
                 (s "fetchedRaw", JNull);
                 (s "fetchError", JObj [
                    (s "statusText",
                      JStr ((s "HTTPSConnection(" ++ h ++ s ","
                             ++ z_to_str (match po with None => 443 | Some n => n end)
                             ++ s ",)") ++ where_));
                    (s "status", JInt 1)])]).
Proof.
  intros Hd Hu Hh Hp Hc. unfold fetch.
  rewrite (parse_resource_host d t u h po Hd Hu Hh Hp). cbn [bind].
  unfold host_text, connect. rewrite Hh.
  destruct Hc as [[Hc ->] | [Hc ->]]; rewrite Hc; reflexivity.
Qed.

Lemma fetch_connection_failure_witness :
  fetch loads_example
    {| w_connect := ConnectFails (s "timed out"); w_peercert := None;
       w_http := HttpRaises UnicodeDecodeError; w_s_client := Ret [];
       w_x509 := Ret tt |} params_get
  = Ret (JObj [(s "peerCertificateDER", JNull); (s "peerCertificateLength", JNull);
               (s "fetchedRaw", JNull);
               (s "fetchError", JObj [
                  (s "statusText",
                    JStr ((s "HTTPSConnection(" ++ s "example.test" ++ s ","
                           ++ z_to_str 443 ++ s ",)") ++ (s ".connect() " ++ s "timed out")));
                  (s "status", JInt 1)])]).
Proof.
  apply (fetch_connection_failure _ _ _ (s "https://example.test/get")
           (url_of (s "https://example.test/get")) (s "example.test") None (s "timed out"));
    try (vm_compute; reflexivity).
  right. split; reflexivity.
Defined.

Lemma partition_char_prefix c t a f b :
  partition_char c t = (a, f, b) -> ~ In c a /\ (f = false -> b = []).
Proof.
  revert a f b. induction t as [|x t IH]; intros a f b; simpl.
  - intros [= <- <- <-]. split; [intros []|reflexivity].
  - destruct (Z.eqb_spec x c).
    + intros [= <- <- <-]. split; [intros []|discriminate].
    + destruct (partition_char c t) as [[a' f'] b'].
      intros [= <- <- <-]. destruct (IH a' f' b' eq_refl) as [H1 H2].
      split; [intros [-> | H]; auto | exact H2].
Qed.

Lemma partition_char_app c l r :
  ~ In c l -> fst (fst (partition_char c (l ++ r))) = l ++ fst (fst (partition_char c r)).
Proof.
  induction l as [|x l IH]; intros H; [reflexivity|]. simpl.
  destruct (Z.eqb_spec x c); [subst; exfalso; apply H; left; reflexivity|].
  specialize (IH (fun Hin => H (or_intror Hin))).
  destruct (partition_char c (l ++ r)) as [[a f] b]. simpl in IH |- *.
  rewrite IH. reflexivity.
Qed.

Lemma lower_not_upper c t : In c (lower t) -> is_ascii_upper c = false.
Proof.
  unfold lower. intros H. apply in_map_iff in H. destruct H as (x & <- & _).
  unfold is_ascii_upper. destruct ((65 <=? x) && (x <=? 90)) eqn:E.
  - apply andb_true_iff in E. rewrite !Z.leb_le in E.
    apply andb_false_iff. right. apply Z.leb_gt. lia.
  - exact E.
Qed.

Lemma lower_keeps_37 t : ~ In 37 t -> ~ In 37 (lower t).
Proof.
  unfold lower. intros H Hin. apply in_map_iff in Hin. destruct Hin as (x & Hx & Hin).
  unfold is_ascii_upper in Hx. destruct ((65 <=? x) && (x <=? 90)) eqn:E.
  - apply andb_true_iff in E. rewrite !Z.leb_le in E. lia.
  - subst x. contradiction.
Qed.

(** The [hostname] property is lowercased: no ASCII capital letter before
    the [%] of a zone id, whatever case the URL had. *)
Theorem hostname_lowercase u h c :
  hostname u = Some h -> In c (fst (fst (partition_char 37 h))) -> is_ascii_upper c = false.
Proof.
  unfold hostname. destruct (fst (hostinfo u)) as [|x r]; [discriminate|].
  destruct (partition_char 37 (x :: r)) as [[a pct] zone] eqn:P.
  intros Hh. injection Hh as <-.
  apply partition_char_prefix in P. destruct P as [Ha Hz].
  rewrite partition_char_app by (apply lower_keeps_37; exact Ha).
  destruct pct.
  - simpl. rewrite ?Z.eqb_refl. simpl. rewrite app_nil_r. apply lower_not_upper.
  - rewrite (Hz eq_refl). simpl. rewrite app_nil_r. apply lower_not_upper.
Qed.

Lemma hostname_lowercase_witness :
  hostname (url_of (s "https://User@EXAMPLE.Test:8443/x")) = Some (s "example.test")
  /\ is_ascii_upper 101 = false.
Proof.
  split; [vm_compute; reflexivity|].
  apply (hostname_lowercase (url_of (s "https://User@EXAMPLE.Test:8443/x")) (s "example.test"));
    vm_compute; [reflexivity | left; reflexivity].
Defined.

(** [fetch_JSON] never returns a value: every call ends in an exception. *)
Theorem fetch_JSON_always_raises connection_error py_ge_400 w parameters host port :
  exists e, fetch_JSON connection_error py_ge_400 w parameters host port = Raise e.
Proof.
  unfold fetch_JSON.
  destruct (fetch_JSON_request parameters); cbn [bind]; [|eauto].
  destruct (w_connect w); cbn [bind subscript dict_get]; eauto.
Qed.

(** Once the [Request] is built and the connection made, [fetch_JSON]
    raises [KeyError('status')] on the empty [details] dict. *)
Theorem fetch_JSON_connected_key_error connection_error py_ge_400 w parameters host port rq :
  fetch_JSON_request parameters = Ret rq -> w_connect w = Connects ->
  fetch_JSON connection_error py_ge_400 w parameters host port = Raise (KeyError (s "status")).
Proof.
  intros Hr Hc. unfold fetch_JSON. rewrite Hr. cbn [bind]. rewrite Hc. reflexivity.
Qed.

Lemma fetch_JSON_connected_key_error_witness :
  fetch_JSON (fun e => HTTPException e) (fun _ => Ret false)
    (world_with (response_with 200 (s "{}"))) params_get (s "example.test") 443
  = Raise (KeyError (s "status")).
Proof.
  eapply (fetch_JSON_connected_key_error _ _ _ params_get).
  - vm_compute. reflexivity.
  - reflexivity.
Defined.

Lemma lstrip_space_chars t : chars_of (lstrip_space t) t.
Proof.
  induction t as [|c t IH]; intros x; simpl; [auto|].
  destruct (is_py_space c); simpl; auto.
Qed.

Lemma rev_chars t : chars_of (rev t) t.
Proof. intros x H. apply in_rev. exact H. Qed.

Lemma chars_rev t : chars_of t (rev t).
Proof. intros x H. apply (in_rev t x). exact H. Qed.

Lemma strip_chars t : chars_of (strip t) t.
Proof.
  intros x H. unfold strip in H.
  apply rev_chars, lstrip_space_chars, rev_chars, lstrip_space_chars in H. exact H.
Qed.

Lemma skipn_chars n t : chars_of (skipn n t) t.
Proof.
  intros x H. rewrite <- (firstn_skipn n t). apply in_or_app. right. exact H.
Qed.

Lemma unwrap_brackets_eq (url : str) :
  match url with
  | 60 :: r => match rev r with 62 :: m => strip (rev m) | _ => url end
  | _ => url
  end
  = match url with
    | c :: r =>
        if c =? 60 then
          match rev r with d :: m => if d =? 62 then strip (rev m) else url | [] => url end
        else url
    | [] => url
    end.
Proof.
  destruct url as [|c r]; [reflexivity|].
  z_literal_cases c. destruct (rev r) as [|d m]; [reflexivity|]. z_literal_cases d.
Qed.

Lemma unwrap_chars t : chars_of (unwrap (JStr t)) t.
Proof.
  unfold unwrap, py_str_value. rewrite unwrap_brackets_eq.
  set (url := strip t).
  assert (H1 : chars_of url t) by apply strip_chars.
  assert (H2 : chars_of (match url with
                         | c :: r =>
                             if c =? 60 then
                               match rev r with
                               | d :: m => if d =? 62 then strip (rev m) else url
                               | [] => url end
                             else url
                         | [] => url end) t).
  { destruct url as [|c r] eqn:E; [exact H1|].
    destruct (c =? 60); [|exact H1].
    destruct (rev r) as [|d m] eqn:R; [exact H1|].
    destruct (d =? 62); [|exact H1].
    intros y Hy. apply strip_chars, rev_chars in Hy. apply H1. right.
    apply rev_chars. rewrite R. right. exact Hy. }
  destruct (startswith _ (s "URL:")).
  - intros x Hx. apply H2. apply (skipn_chars 4). apply strip_chars. exact Hx.
  - exact H2.
Qed.

Lemma partition_char_chars c t a f b :
  partition_char c t = (a, f, b) -> chars_of a t /\ chars_of b t.
Proof.
  revert a f b. induction t as [|x t IH]; intros a f b; simpl.
  - intros [= <- <- <-]. split; intros y [].
  - destruct (x =? c).
    + intros [= <- <- <-]. split; [intros y [] | intros y Hy; right; exact Hy].
    + destruct (partition_char c t) as [[a' f'] b'].
      intros [= <- <- <-]. destruct (IH a' f' b' eq_refl) as [H1 H2].
      split; intros y Hy; [destruct Hy as [<- | Hy]; [left; reflexivity | right; auto]
                          | right; auto].
Qed.

Lemma splittag_chars url u frag : splittag url = (u, frag) -> chars_of u url.
Proof.
  unfold splittag, rpartition_char.
  destruct (partition_char 35 (rev url)) as [[a f] b] eqn:P.
  apply partition_char_chars in P. destruct P as [_ Hb].
  destruct f; intros [= <- _]; [|intros y Hy; exact Hy].
  intros y Hy. apply rev_chars, Hb, rev_chars in Hy. exact Hy.
Qed.

Lemma break_slash_colon_app t a b : break_slash_colon t = (a, b) -> t = a ++ b.
Proof.
  revert a b. induction t as [|c t IH]; intros a b; simpl.
  - intros [= <- <-]. reflexivity.
  - destruct ((c =? 47) || (c =? 58)); [intros [= <- <-]; reflexivity|].
    destruct (break_slash_colon t) as [a' b'].
    intros [= <- <-]. rewrite (IH a' b' eq_refl). reflexivity.
Qed.

Lemma splittype_eq url :
  splittype url
  = match break_slash_colon url with
    | (x :: a, y :: b) => if y =? 58 then Some (lower (x :: a), b) else None
    | _ => None
    end.
Proof.
  unfold splittype. destruct (break_slash_colon url) as [[|x a] [|y b]]; try reflexivity.
  z_literal_cases y.
Qed.

Lemma splittype_colon url sc data : splittype url = Some (sc, data) -> In 58 url.
Proof.
  rewrite splittype_eq. destruct (break_slash_colon url) as [a b] eqn:B.
  apply break_slash_colon_app in B. subst url.
  destruct a as [|x a]; [discriminate|].
  destruct b as [|y b]; [discriminate|].
  destruct (Z.eqb_spec y 58); [|discriminate].
  subst y. intros _. apply in_or_app. right. left. reflexivity.
Qed.

(** [fetch_JSON] first builds [urllib.request.Request(parameters['resource'])],
    which raises [ValueError] (unknown url type) for a resource text with no
    [:] at all. *)
Theorem fetch_JSON_request_no_scheme d t :
  dict_get d (s "resource") = Some (JStr t) -> ~ In 58 t ->
  exists msg, fetch_JSON_request (JObj d) = Raise (ValueError msg).
Proof.
  intros Hd Ht. unfold fetch_JSON_request. cbn [subscript]. rewrite Hd. cbn [bind].
  unfold urllib_request.
  destruct (splittag (unwrap (JStr t))) as [u frag] eqn:E.
  destruct (splittype u) as [[sc data]|] eqn:T.
  - exfalso. apply Ht. apply splittype_colon in T.
    apply (unwrap_chars t), (splittag_chars _ u frag E). exact T.
  - eexists. reflexivity.
Qed.

Lemma fetch_JSON_request_no_scheme_witness :
  exists msg, fetch_JSON_request (JObj [(s "resource", JStr (s "example.test/get"))])
              = Raise (ValueError msg).
Proof.
  apply (fetch_JSON_request_no_scheme _ (s "example.test/get")); [reflexivity|].
  vm_compute. intros H. repeat (destruct H as [H|H]; [discriminate|]). exact H.
Defined.

(** [options.get('method')] needs a dict: [options] of any other type makes
    [_request] raise [AttributeError] before anything is sent. *)
Theorem request_calls_options_not_dict d o :
  dict_get d (s "options") = Some o -> (forall kv, o <> JObj kv) ->
  request_calls (JObj d) = Raise (AttributeError (s "object has no attribute 'get'")).
Proof.
  intros Hd Ho. unfold request_calls, get_options. cbn [subscript]. rewrite Hd.
  cbn [bind]. destruct o; try reflexivity. exfalso. eapply Ho. reflexivity.
Qed.

Lemma request_calls_options_not_dict_witness :
  request_calls (JObj [(s "resource", JStr (s "https://example.test/get"));
                       (s "options", JArr [JStr (s "method")])])
  = Raise (AttributeError (s "object has no attribute 'get'")).
Proof.
  apply (request_calls_options_not_dict _ (JArr [JStr (s "method")])); [reflexivity|].
  intros kv H. discriminate H.
Defined.

(** ** The request body *)

(** The [method] option as the request line gets it: [GET] when absent or
    null, the string otherwise. *)
Lemma request_method_cases o m :
  (dict_get o (s "method") = None /\ m = s "GET")
  \/ (dict_get o (s "method") = Some JNull /\ m = s "GET")
  \/ dict_get o (s "method") = Some (JStr m) ->
  match dict_get o (s "method") with
  | None | Some JNull => Ret (s "GET")
  | Some (JStr m) => Ret m
  | Some _ => Raise (TypeError (s "expected string or bytes-like object"))
  end = Ret m.
Proof. intros [[-> ->] | [[-> ->] | ->]]; reflexivity. Qed.

(** Claim C9. When the options hold a [bodyObject] and, as the interface
    requires, no [body], [_request] writes a [Content-Type:
    application/json] header right after the request line, then the
    caller's headers, and sends as body the bytes of [json.dumps(bodyObject)]
    (ASCII text, so the bytes are its characters). The request line uses the
    [method] option, and [GET] when it is absent or null. *)
Theorem request_calls_body_object d o v resource m hs :
  dict_get d (s "options") = Some (JObj o) ->
  dict_get d (s "resource") = Some (JStr resource) ->
  dict_get o (s "body") = None ->
  dict_get o (s "bodyObject") = Some v ->
  floats_ascii v = true ->
  (dict_get o (s "method") = None /\ m = s "GET")
  \/ (dict_get o (s "method") = Some JNull /\ m = s "GET")
  \/ dict_get o (s "method") = Some (JStr m) ->
  (dict_get o (s "headers") = None /\ hs = [])
  \/ dict_get o (s "headers") = Some (JObj hs) ->
  request_calls (JObj d)
  = Ret ([PutRequest m resource;
          PutHeader (s "Content-Type") (JStr (s "application/json"))]
         ++ map (fun hv => PutHeader (fst hv) (snd hv)) hs
         ++ [EndHeaders (Some (json_dumps v)); Send []]).
Proof.
  intros Ho Hr Hb Hv Hf Hm Hh.
  unfold request_calls, get_options. cbn [subscript]. rewrite Ho. cbn [bind].
  unfold options_get. cbn [bind].
  rewrite Hr. cbn [bind].
  rewrite (request_method_cases o m Hm). cbn [bind].
  unfold options_has, dict_has. rewrite Hb, Hv. cbn [bind orb subscript].
  rewrite Hv. cbn [bind]. unfold py_encode.
  rewrite ascii_encode by (apply json_dumps_ascii; exact Hf).
  destruct Hh as [[Hh ->] | Hh]; rewrite Hh; reflexivity.
Qed.

Lemma request_calls_body_object_witness :
  request_calls (params_with_options
                   [(s "method", JStr (s "POST")); (s "bodyObject", JObj [(s "x", JInt 1)])])
  = Ret ([PutRequest (s "POST") (s "https://example.test/post");
          PutHeader (s "Content-Type") (JStr (s "application/json"))]
         ++ map (fun hv => PutHeader (fst hv) (snd hv)) []
         ++ [EndHeaders (Some (s "{" ++ [34] ++ s "x" ++ [34] ++ s ": 1}")); Send []]).
Proof.
  apply (request_calls_body_object _
           [(s "method", JStr (s "POST")); (s "bodyObject", JObj [(s "x", JInt 1)])]
           (JObj [(s "x", JInt 1)]) (s "https://example.test/post") (s "POST") []);
    first [reflexivity | right; right; reflexivity | left; split; reflexivity].
Defined.

(** When the options hold a [body] string, [_request] writes the
    [Content-Type: application/json] header and sends [body.encode()],
    whatever a [bodyObject] beside it holds: the [body] branch of the
    conditional is taken first. *)
Theorem request_calls_body_precedence d o t bytes resource m hs :
  dict_get d (s "options") = Some (JObj o) ->
  dict_get d (s "resource") = Some (JStr resource) ->
  dict_get o (s "body") = Some (JStr t) ->
  encode_utf8 t = Some bytes ->
  (dict_get o (s "method") = None /\ m = s "GET")
  \/ (dict_get o (s "method") = Some JNull /\ m = s "GET")
  \/ dict_get o (s "method") = Some (JStr m) ->
  (dict_get o (s "headers") = None /\ hs = [])
  \/ dict_get o (s "headers") = Some (JObj hs) ->
  request_calls (JObj d)
  = Ret ([PutRequest m resource;
          PutHeader (s "Content-Type") (JStr (s "application/json"))]
         ++ map (fun hv => PutHeader (fst hv) (snd hv)) hs
         ++ [EndHeaders (Some bytes); Send []]).
Proof.
  intros Ho Hr Hb He Hm Hh.
  unfold request_calls, get_options. cbn [subscript]. rewrite Ho. cbn [bind].
  unfold options_get. cbn [bind].
  rewrite Hr. cbn [bind].
  rewrite (request_method_cases o m Hm). cbn [bind].
  unfold options_has at 1, dict_has at 1. rewrite Hb. cbn [bind orb subscript].
  rewrite Hb. cbn [bind]. unfold py_encode. rewrite He.
  unfold options_has. cbn [bind].
  destruct Hh as [[Hh ->] | Hh]; rewrite Hh; reflexivity.
Qed.

Lemma request_calls_body_precedence_witness :
  request_calls (params_with_options
                   [(s "body", JStr [233]); (s "bodyObject", JInt 1);
                    (s "headers", JObj [(s "X-A", JStr (s "1"))])])
  = Ret ([PutRequest (s "GET") (s "https://example.test/post");
          PutHeader (s "Content-Type") (JStr (s "application/json"))]
         ++ map (fun hv => PutHeader (fst hv) (snd hv)) [(s "X-A", JStr (s "1"))]
         ++ [EndHeaders (Some [195; 169]); Send []]).
Proof.
  apply (request_calls_body_precedence _
           [(s "body", JStr [233]); (s "bodyObject", JInt 1);
            (s "headers", JObj [(s "X-A", JStr (s "1"))])]
           [233] [195; 169] (s "https://example.test/post") (s "GET")
           [(s "X-A", JStr (s "1"))]);
    first [reflexivity | left; split; reflexivity | right; reflexivity].
Defined.
